(** * The catalog API of [main.py], embedded in Rocq

    The FastAPI handlers of [main.py] are translated one by one into
    functions over an explicit model of the process state: the global [db]
    handle (an [option Database], [None] when the handle is [None]) and the
    documents it holds.  Python dictionaries are [gmap string _], exceptions
    are values of [Result], and the parts that belong to third-party
    libraries (the printing of floats, the regular-expression engine of the
    store, the lax coercions of the request validator) are section
    variables. *)

From Stdlib.Strings Require Import Byte.
From Stdlib Require Import QArith Qcanon Ascii String.
From stdpp Require Import numbers gmap strings list sorting.

Local Open Scope string_scope.
Local Open Scope list_scope.

(** ** Exceptions and results *)

Inductive exn :=
  | HTTPException (status_code : nat) (detail : string)
  | RequestValidationError
  | ResponseValidationError
  | Exception (msg : string).

Inductive Result (A : Type) :=
  | Raise (e : exn)
  | Return (a : A).
Arguments Raise {A} e.
Arguments Return {A} a.

Global Instance Result_ret : MRet Result := λ A a, Return a.
Global Instance Result_fmap : FMap Result := λ A B f r,
  match r with
  | Raise e => Raise e
  | Return a => Return (f a)
  end.
Global Instance Result_bind : MBind Result := λ A B k r,
  match r with
  | Raise e => Raise e
  | Return a => k a
  end.

(** ** Floats

    The program never computes with floats: it compares them (the [ge] and
    [le] constraints, the sort of the store) and prints them.  A float is
    therefore a finite value, kept as a canonical rational, or one of the
    three special values. *)

Inductive float :=
  | NaN
  | NegInf
  | Fin (q : Qc)
  | PosInf.

(** Python's [x <= y] on floats: false as soon as one side is [NaN]. *)
Definition float_le (x y : float) : Prop :=
  match x, y with
  | NaN, _ | _, NaN => False
  | NegInf, _ => True
  | _, NegInf => False
  | _, PosInf => True
  | PosInf, _ => False
  | Fin p, Fin q => (p ≤ q)%Qc
  end.

Definition float_of_Z (n : Z) : float := Fin (Qc_of_Z n).
Definition decimal (n : Z) (d : positive) : float := Fin (Q2Qc (n # d)).

Global Instance float_eq_dec : EqDecision float.
Proof. solve_decision. Defined.

Global Instance float_le_dec : RelDecision float_le.
Proof. intros [] []; simpl; apply _. Defined.

(** ** ObjectId

    A BSON ObjectId is twelve bytes: twelve bytes are what the driver
    generates and what a stored document holds, and [ObjectId] is the
    type of these.  An instance of the Python class keeps the bytes it
    was built from, [oid.binary], and [str] prints them as lower-case hex
    digits.  The constructor takes a string of 24 characters that
    [bytes.fromhex] accepts, and [bytes.fromhex] skips ASCII white space
    in front of a byte: from 24 hex digits, in either case, the instance
    gets twelve bytes, and from a string with white space it gets fewer.
    Such an instance is kept as its bytes, a [list byte]. *)

Inductive ObjectId :=
  | OID (b0 b1 b2 b3 b4 b5 b6 b7 b8 b9 b10 b11 : byte).

Global Instance byte_eq_dec : EqDecision byte := Byte.byte_eq_dec.

Global Instance ObjectId_eq_dec : EqDecision ObjectId.
Proof. solve_decision. Defined.

Definition binary (o : ObjectId) : list byte :=
  let 'OID b0 b1 b2 b3 b4 b5 b6 b7 b8 b9 b10 b11 := o in
  [b0; b1; b2; b3; b4; b5; b6; b7; b8; b9; b10; b11].

Module Hex.

(** The hex digit of a number below 16, in lower case. *)
Definition digit (n : N) : ascii :=
  if (n <? 10)%N then ascii_of_N (48 + n) else ascii_of_N (87 + n).

(** The number a hex digit stands for, in either case. *)
Definition value (c : ascii) : option N :=
  let n := N_of_ascii c in
  if (48 <=? n)%N && (n <=? 57)%N then Some (n - 48)%N
  else if (97 <=? n)%N && (n <=? 102)%N then Some (n - 87)%N
  else if (65 <=? n)%N && (n <=? 70)%N then Some (n - 55)%N
  else None.

Definition of_byte (b : byte) (rest : string) : string :=
  let n := Byte.to_N b in
  String (digit (n / 16)) (String (digit (n mod 16)) rest).

Definition to_byte (c1 c2 : ascii) : option byte :=
  hi ← value c1; lo ← value c2; Byte.of_N (16 * hi + lo).

(** [bytes.hex()] *)
Definition hex (l : list byte) : string := foldr of_byte "" l.

(** ASCII white space: the characters 9 to 13 and the space. *)
Definition space (c : ascii) : bool :=
  let n := N_of_ascii c in (9 <=? n)%N && (n <=? 13)%N || (n =? 32)%N.

(** [bytes.fromhex(s)]: pairs of hex digits, with white space skipped in
    front of a pair and at the end, but not inside a pair; [None] stands
    for [ValueError]. *)
Fixpoint fromhex (s : string) : option (list byte) :=
  match s with
  | "" => Some []
  | String c1 s1 =>
      if space c1 then fromhex s1
      else match s1 with
           | String c2 s' => b ← to_byte c1 c2; l ← fromhex s'; Some (b :: l)
           | "" => None
           end
  end.

End Hex.

(** [str(oid)] *)
Definition ObjectId_str (o : ObjectId) : string := Hex.hex (binary o).

(** [ObjectId(s).binary] for a string [s]; [None] stands for [InvalidId].
    Strings are kept as their UTF-8 bytes: a string with a character
    outside ASCII has a byte that is neither a hex digit nor white space,
    so that counting bytes here and characters there accepts the same
    strings. *)
Definition ObjectId_init (s : string) : option (list byte) :=
  if decide (String.length s = 24%nat) then Hex.fromhex s else None.

(** The ObjectId an instance is, when it holds twelve bytes. *)
Definition ObjectId_of_bytes (l : list byte) : option ObjectId :=
  match l with
  | [b0; b1; b2; b3; b4; b5; b6; b7; b8; b9; b10; b11] =>
      Some (OID b0 b1 b2 b3 b4 b5 b6 b7 b8 b9 b10 b11)
  | _ => None
  end.

(** The ObjectId a string stands for: [ObjectId(s)] when it comes out
    with twelve bytes, which it does for 24 hex digits and for nothing
    else. *)
Definition ObjectId_of_str (s : string) : option ObjectId :=
  ObjectId_init s ≫= ObjectId_of_bytes.

(** ** Documents *)

Inductive value :=
  | VNone
  | VBool (b : bool)
  | VNum (x : float)
  | VStr (s : string)
  | VOid (o : ObjectId).

Global Instance value_eq_dec : EqDecision value.
Proof. solve_decision. Defined.

Global Instance value_inhabited : Inhabited value := populate VNone.

(** A stored document, a [Dict[str, Any]]. *)
Abbreviation Dict := (gmap string value).

(** Python truthiness, as used by [if c] and [if not doc]. *)
Definition truthy (v : value) : bool :=
  match v with
  | VNone => false
  | VBool b => b
  | VNum x => bool_decide (x ≠ Fin 0%Qc)
  | VStr s => bool_decide (s ≠ "")
  | VOid _ => true
  end.

Definition option_str (o : option string) : value :=
  match o with
  | Some s => VStr s
  | None => VNone
  end.

Definition option_num (o : option float) : value :=
  match o with
  | Some x => VNum x
  | None => VNone
  end.

(** ** Request and response bodies *)

#[warnings="-register-all"] Inductive json :=
  | JNull
  | JBool (b : bool)
  | JNum (x : float)
  | JStr (s : string)
  | JList (items : list json)
  | JObject (fields : list (string * json)).

(** [s[:n]] on a UTF-8 string: the bytes of its first [n] code points.  A
    byte in the range 0x80 to 0xBF continues the code point before it. *)
Definition continuation (c : ascii) : bool :=
  let n := N_of_ascii c in (128 <=? n)%N && (n <? 192)%N.

Fixpoint str_prefix (n : nat) (s : string) : string :=
  match s with
  | "" => ""
  | String c s' =>
      if continuation c then String c (str_prefix n s')
      else match n with
           | O => ""
           | S n' => String c (str_prefix n' s')
           end
  end.

(** ** The document store

    [db] is a pymongo [Database]; the model keeps what the handlers observe
    of it.  A collection is the list of its documents in natural order. *)

Inductive Attribute :=
  | NoAttribute
  | HasAttribute (v : string)
  | AttributeRaises (msg : string).

Record Database := {
  (** [db.name] *)
  name : Attribute;
  (** what [db.list_collection_names()] does: [inl msg] when it raises an
      exception [e] with [str(e) = msg] *)
  list_collection_names : string + list string;
  (** [db[c]] for every collection name [c] *)
  collections : gmap string (list Dict);
  (** the identifiers the driver generates for the next inserts *)
  pending : nat → ObjectId;
}.

Definition collection (db : Database) (c : string) : list Dict :=
  default [] (collections db !! c).

(** The comparison order of the store, across types: null, numbers,
    strings, ObjectIds, booleans.  [NaN] is the least number. *)
Definition bson_rank (v : value) : nat :=
  match v with
  | VNone => 1
  | VNum _ => 2
  | VStr _ => 3
  | VOid _ => 4
  | VBool _ => 5
  end.

Definition float_bson_le (x y : float) : Prop :=
  match x, y with
  | NaN, _ => True
  | _, NaN => False
  | _, _ => float_le x y
  end.

Definition bson_le (v w : value) : Prop :=
  match v, w with
  | VNum x, VNum y => float_bson_le x y
  | VStr s, VStr t => String.le s t
  | VOid o, VOid p => String.le (ObjectId_str o) (ObjectId_str p)
  | VBool a, VBool b => implb a b
  | _, _ => (bson_rank v ≤ bson_rank w)%nat
  end.

Global Instance float_bson_le_dec : RelDecision float_bson_le.
Proof. intros [] []; simpl; apply _. Defined.

Global Instance bson_le_dec : RelDecision bson_le.
Proof. intros [] []; simpl; apply _. Defined.

Inductive direction :=
  | ASCENDING   (* 1 *)
  | DESCENDING. (* -1 *)

(** A missing field sorts as null. *)
Definition sort_key (k : string) (d : Dict) : value := default VNone (d !! k).

Definition sort_le (k : string) (dir : direction) (d1 d2 : Dict) : Prop :=
  match dir with
  | ASCENDING => bson_le (sort_key k d1) (sort_key k d2)
  | DESCENDING => bson_le (sort_key k d2) (sort_key k d1)
  end.

Global Instance sort_le_dec k dir : RelDecision (sort_le k dir).
Proof. intros d1 d2. destruct dir; simpl; apply _. Defined.

(** Filter documents: the entries of the dictionary, all of which a
    document has to satisfy. *)
Inductive clause :=
  | Equals (field : string) (v : value)
  | Regex (field pattern options : string).

Inductive criterion :=
  | Clause (c : clause)
  | Or (cs : list clause).

Record Cursor := {
  c_documents : list Dict;
  c_filter : list criterion;
  c_sort : option (string * direction);
  c_limit : Z;
}.

Definition find (documents : list Dict) (filter_doc : list criterion) : Cursor :=
  {| c_documents := documents; c_filter := filter_doc;
     c_sort := None; c_limit := 0%Z |}.

Definition Cursor_sort (k : string) (dir : direction) (c : Cursor) : Cursor :=
  {| c_documents := c_documents c; c_filter := c_filter c;
     c_sort := Some (k, dir); c_limit := c_limit c |}.

Definition Cursor_limit (n : Z) (c : Cursor) : Cursor :=
  {| c_documents := c_documents c; c_filter := c_filter c;
     c_sort := c_sort c; c_limit := n |}.

(** [cursor.limit(n)]: no limit for 0, the absolute value otherwise. *)
Definition apply_limit (n : Z) (ds : list Dict) : list Dict :=
  if decide (n = 0%Z) then ds else take (Z.abs_nat n) ds.

(** [cursor.sort(k, dir)]: the documents in the comparison order of the
    store on the field [k].  Where two documents compare equal the store
    promises no order; the model keeps the one they had. *)
Definition apply_sort (o : option (string * direction)) (ds : list Dict)
    : list Dict :=
  match o with
  | None => ds
  | Some (k, dir) => merge_sort (sort_le k dir) ds
  end.

(** [db[c].distinct(k)]: the values of field [k], each once. *)
Definition distinct (k : string) (documents : list Dict) : list value :=
  remove_dups (omap (λ d : Dict, d !! k) documents).

Definition has_id (v : value) (d : Dict) : Prop := d !! "_id" = Some v.

Global Instance has_id_dec v d : Decision (has_id v d).
Proof. unfold has_id. apply _. Defined.

(** The driver takes the next identifier it generates. *)
Definition advance (db : Database) : Database :=
  {| name := name db;
     list_collection_names := list_collection_names db;
     collections := collections db;
     pending := λ n, pending db (S n) |}.

(** The document [d] goes to the end of the collection [c]. *)
Definition append (c : string) (d : Dict) (db : Database) : Database :=
  {| name := name db;
     list_collection_names := list_collection_names db;
     collections := <[c := (collection db c ++ [d])%list]> (collections db);
     pending := pending db |}.

(** [db[c].insert_one(data)] for a [data] without ["_id"]: the driver
    generates the identifier, and the store refuses a duplicate. *)
Definition insert_one (c : string) (data : Dict) (db : Database)
    : Database * Result ObjectId :=
  let oid := pending db 0 in
  let db := advance db in
  if decide (Exists (has_id (VOid oid)) (collection db c)) then
    (db, Raise (Exception "DuplicateKeyError"))
  else
    (append c (<["_id" := VOid oid]> data) db, Return oid).

(** Modelled from the spec: [create_document] of the absent [database]
    module.  The store assigns a new identifier to the record on insert;
    the caller gets the identifier back in the form [ObjectId(...)]
    accepts, its string. *)
Definition create_document (collection_name : string) (data : Dict)
    (db : Database) : Database * Result string :=
  let '(db, r) := insert_one collection_name data db in
  (db, ObjectId_str <$> r).

(** ** Python comparisons and [sorted] *)

Definition float_lt (x y : float) : Prop :=
  match x, y with
  | NaN, _ | _, NaN => False
  | _, NegInf => False
  | NegInf, _ => True
  | PosInf, _ => False
  | _, PosInf => True
  | Fin p, Fin q => (p < q)%Qc
  end.

Global Instance float_lt_dec : RelDecision float_lt.
Proof. intros [] []; simpl; apply _. Defined.

(** [v < w]; [None] stands for the [TypeError] of an unordered pair. *)
Definition py_lt (v w : value) : option bool :=
  let number (v : value) : option float :=
    match v with
    | VBool b => Some (float_of_Z (Z.b2z b))
    | VNum x => Some x
    | _ => None
    end in
  match v, w with
  | VStr s, VStr t => Some (String.ltb s t)
  | VOid o, VOid p => Some (String.ltb (ObjectId_str o) (ObjectId_str p))
  | _, _ =>
      x ← number v; y ← number w; Some (bool_decide (float_lt x y))
  end.

(** Inserts [x] in front of the first element that is not below it. *)
Fixpoint insort (x : value) (l : list value) : option (list value) :=
  match l with
  | [] => Some [x]
  | y :: l' =>
      b ← py_lt y x;
      if b : bool then cons y <$> insort x l' else Some (x :: l)
  end.

(** [sorted(l)]: stable, by [<] alone. *)
Definition sorted (l : list value) : Result (list value) :=
  match foldr (λ x acc, acc ← acc; insort x acc) (Some []) l with
  | Some l => Return l
  | None => Raise (Exception "TypeError")
  end.

(** ** Schemas *)

Record ProductCreate := {
  title : string;
  description : option string;
  price : float;
  category : string;
  in_stock : bool;
  image : option string;
  rating : option float;
}.

(** [payload.model_dump()] *)
Definition model_dump (p : ProductCreate) : Dict :=
  {[ "title" := VStr (title p);
     "description" := option_str (description p);
     "price" := VNum (price p);
     "category" := VStr (category p);
     "in_stock" := VBool (in_stock p);
     "image" := option_str (image p);
     "rating" := option_num (rating p) ]}.

(** One entry of the list [sample_products] of [seed_products]. *)
Definition sample (title description : string) (price : float)
    (category : string) (image : string) (rating : float) : Dict :=
  {[ "title" := VStr title;
     "description" := VStr description;
     "price" := VNum price;
     "category" := VStr category;
     "in_stock" := VBool true;
     "image" := VStr image;
     "rating" := VNum rating ]}.

Definition sample_products : list Dict :=
  [ sample "Wireless Headphones"
      "Noise-cancelling over-ear headphones with 30h battery."
      (decimal 12999 100) "Electronics"
      "https://images.unsplash.com/photo-1518445077100-1be42e41a1b7?w=800&q=80"
      (decimal 46 10);
    sample "Smart Watch"
      "Fitness tracking, heart-rate monitor, and notifications."
      (decimal 89 1) "Electronics"
      "https://images.unsplash.com/photo-1511707171634-5f897ff02aa9?w=800&q=80"
      (decimal 44 10);
    sample "Minimalist Sneakers"
      "Lightweight, breathable everyday sneakers."
      (decimal 5999 100) "Fashion"
      "https://images.unsplash.com/photo-1528701800489-20be0b1c7e82?w=800&q=80"
      (decimal 42 10);
    sample "Ceramic Mug"
      "Matte finish mug for your daily coffee ritual."
      (decimal 145 10) "Home & Kitchen"
      "https://images.unsplash.com/photo-1517686469429-8bdb88b9f907?w=800&q=80"
      (decimal 48 10);
    sample "Standing Desk"
      "Adjustable height desk for ergonomic work."
      (decimal 279 1) "Office"
      "https://images.unsplash.com/photo-1517084166765-7f75a9966ace?w=800&q=80"
      (decimal 47 10);
    sample "Cotton T-Shirt"
      "Soft, breathable cotton tee in multiple colors."
      (decimal 1999 100) "Fashion"
      "https://images.unsplash.com/photo-1520975916090-3105956dac38?w=800&q=80"
      (decimal 41 10) ].

(** ** Example data *)

(** Stand-ins for the two library functions in the examples below, which
    print no float and search for literal text only: every finite float
    prints alike, and a pattern without a special character matches the
    text equal to it. *)
Definition plain_repr (x : float) : string :=
  match x with
  | NaN => "nan"
  | NegInf => "-inf"
  | PosInf => "inf"
  | Fin _ => "0.0"
  end.

Definition literal_regex (pattern options : string)
    : option (string → bool) :=
  if decide (Forall (λ c, c ∉ list_ascii_of_string "\^$.|?*+()[]{}")
               (list_ascii_of_string pattern))
  then Some (λ s, bool_decide (s = pattern))
  else None.

(** A validator that takes JSON numbers and booleans as they are. *)
Definition json_float (j : json) : option float :=
  match j with JNum x => Some x | _ => None end.

Definition json_bool (j : json) : option bool :=
  match j with JBool b => Some b | _ => None end.

Definition example_oid (n : nat) : ObjectId :=
  OID x65 x4f x1a x2b x00 x00 x00 x00 x00 x00 x00
      (default x00 (Byte.of_N (N.of_nat n))).

(** A reachable store without a document. *)
Definition empty_db : Database :=
  {| name := HasAttribute "shop";
     list_collection_names := inr ["product"];
     collections := ∅;
     pending := example_oid |}.

(** The store after the sample products went in, under the identifiers
    [example_oid 0] to [example_oid 5]. *)
Definition seeded_db : Database :=
  {| name := HasAttribute "shop";
     list_collection_names := inr ["product"];
     collections :=
       {[ "product" :=
            imap (λ i p, <["_id" := VOid (example_oid i)]> p)
                 sample_products ]};
     pending := λ n, example_oid (6 + n) |}.

(** The store of the sample products when the driver hands out an
    identifier that is taken. *)
Definition clashing_db : Database :=
  {| name := HasAttribute "shop";
     list_collection_names := inr ["product"];
     collections := collections seeded_db;
     pending := example_oid |}.

(** The store of the sample products, kept in the opposite order. *)
Definition reversed_db : Database :=
  {| name := HasAttribute "shop";
     list_collection_names := inr ["product"];
     collections :=
       {[ "product" := reverse (collection seeded_db "product") ]};
     pending := pending seeded_db |}.

(** A store written by another program: one category is a text, one a
    number. *)
Definition mixed_db : Database :=
  {| name := HasAttribute "shop";
     list_collection_names := inr ["product"];
     collections :=
       {[ "product" :=
            [ {[ "category" := VStr "Office" ]};
              {[ "category" := VNum (float_of_Z 7) ]} ] ]};
     pending := example_oid |}.

(** A store that is reached and then fails to list its collections. *)
Definition failing_db : Database :=
  {| name := HasAttribute "shop";
     list_collection_names :=
       inl "not authorized on shop to execute command { listCollections: 1 }";
     collections := ∅;
     pending := example_oid |}.

(** A request body and the payload it validates to. *)
Definition desk_lamp_body : gmap string json :=
  {[ "title" := JStr "Desk Lamp"; "price" := JNum (decimal 2450 100);
     "category" := JStr "Office" ]}.

Definition desk_lamp : ProductCreate :=
  {| title := "Desk Lamp"; description := None; price := decimal 2450 100;
     category := "Office"; in_stock := true; image := None;
     rating := Some (decimal 45 10) |}.

Section Catalog.

Set Default Proof Using "Type".

(** [repr] of a float, which is what [str] prints. *)
Variable float_repr : float → string.

(** The regular expressions of the store: [regex pattern options] is the
    matcher of a pattern, [None] when the store rejects the pattern. *)
Variable regex : string → string → option (string → bool).

(** The coercions of the request validator to [float] and to [bool]. *)
Variable lax_float : json → option float.
Variable lax_bool : json → option bool.

(** *** Helpers *)

Definition py_str (v : value) : string :=
  match v with
  | VNone => "None"
  | VBool true => "True"
  | VBool false => "False"
  | VNum x => float_repr x
  | VStr s => s
  | VOid o => ObjectId_str o
  end.

(** The body of the loop of [serialize_doc]. *)
Definition stringify (v : value) : value :=
  match v with
  | VOid o => VStr (ObjectId_str o)
  | _ => v
  end.

Definition serialize_doc (doc : Dict) : Dict :=
  if decide (doc = ∅) then doc
  else
    let out := doc in
    let out :=
      match out !! "_id" with
      | Some v =>
          if decide (v = VNone) then out
          else <["id" := VStr (py_str v)]> (delete "_id" out)
      | None => out
      end in
    stringify <$> out.

(** *** Queries *)

Definition compile_clause (c : clause) : option (Dict → bool) :=
  match c with
  | Equals f v =>
      Some (λ d, bool_decide (d !! f = Some v ∨ (v = VNone ∧ d !! f = None)))
  | Regex f pattern options =>
      m ← regex pattern options;
      Some (λ d, match d !! f with Some (VStr s) => m s | _ => false end)
  end.

Definition compile_criterion (c : criterion) : option (Dict → bool) :=
  match c with
  | Clause c => compile_clause c
  | Or cs =>
      ms ← mapM compile_clause cs;
      Some (λ d, existsb (λ m : Dict → bool, m d) ms)
  end.

Definition compile (filter_doc : list criterion) : option (Dict → bool) :=
  ms ← mapM compile_criterion filter_doc;
  Some (λ d, forallb (λ m : Dict → bool, m d) ms).

(** The documents that satisfy a filter; the store fails the whole query
    when the filter holds a pattern it rejects. *)
Definition run (documents : list Dict) (filter_doc : list criterion)
    : Result (list Dict) :=
  match compile filter_doc with
  | Some m => Return (filter (λ d, m d = true) documents)
  | None => Raise (Exception "OperationFailure")
  end.

(** Iterating over a cursor. *)
Definition to_list (c : Cursor) : Result (list Dict) :=
  ds ← run (c_documents c) (c_filter c);
  Return (apply_limit (c_limit c) (apply_sort (c_sort c) ds)).

Definition find_one (documents : list Dict) (filter_doc : list criterion)
    : Result (option Dict) :=
  head <$> run documents filter_doc.

(** [db[c].find_one({"_id": oid})] for an instance [oid] of the class.  A
    stored identifier is equal to [oid] when it has the bytes of [oid],
    and it has twelve: an instance of fewer bytes finds no document. *)
Definition find_one_by_id (documents : list Dict) (oid : list byte)
    : Result (option Dict) :=
  match ObjectId_of_bytes oid with
  | Some o => find_one documents [Clause (Equals "_id" (VOid o))]
  | None => Return None
  end.

Definition count_documents (documents : list Dict)
    (filter_doc : list criterion) : Result nat :=
  length <$> run documents filter_doc.

(** *** Schemas: validation of a request body *)

Definition required_str (o : option json) : Result string :=
  match o with
  | Some (JStr s) => Return s
  | _ => Raise RequestValidationError
  end.

Definition optional_str (o : option json) : Result (option string) :=
  match o with
  | None | Some JNull => Return None
  | Some (JStr s) => Return (Some s)
  | Some _ => Raise RequestValidationError
  end.

(** [float] with the bounds of its [Field]. *)
Definition bounded_float (ge : float) (le : option float) (j : json)
    : Result float :=
  match lax_float j with
  | Some x =>
      if bool_decide (float_le ge x)
         && from_option (λ le, bool_decide (float_le x le)) true le
      then Return x else Raise RequestValidationError
  | None => Raise RequestValidationError
  end.

(** Validation of the body of a request against [ProductCreate]. *)
Definition ProductCreate_validate (body : gmap string json)
    : Result ProductCreate :=
  title ← required_str (body !! "title");
  description ← optional_str (body !! "description");
  price ←
    match body !! "price" with
    | Some j => bounded_float (float_of_Z 0) None j
    | None => Raise RequestValidationError
    end;
  category ← required_str (body !! "category");
  in_stock ←
    match body !! "in_stock" with
    | Some j =>
        match lax_bool j with
        | Some b => Return b
        | None => Raise RequestValidationError
        end
    | None => Return true
    end;
  image ← optional_str (body !! "image");
  rating ←
    match body !! "rating" with
    | None => Return (Some (decimal 45 10))
    | Some JNull => Return None
    | Some j => Some <$> bounded_float (float_of_Z 0) (Some (float_of_Z 5)) j
    end;
  Return {| title := title; description := description; price := price;
            category := category; in_stock := in_stock; image := image;
            rating := rating |}.

(** *** Seed sample data (on first run) *)

(** The loop [for p in sample_products: create_document("product", p)];
    an exception leaves it. *)
Fixpoint create_documents (ps : list Dict) (db : Database)
    : Database * Result unit :=
  match ps with
  | [] => (db, Return ())
  | p :: ps =>
      let '(db, r) := create_document "product" p db in
      match r with
      | Raise e => (db, Raise e)
      | Return _ => create_documents ps db
      end
  end.

(** The startup hook.  It returns nothing; the result is the state of the
    store after it, every exception being swallowed. *)
Definition seed_products (db : option Database) : option Database :=
  match db with
  | None => None
  | Some db =>
      match count_documents (collection db "product") [] with
      | Return count =>
          if decide (count = 0%nat)
          then Some (create_documents sample_products db).1
          else Some db
      | Raise _ => Some db
      end
  end.

(** *** Routes *)

(** The body of [list_products].  The bounds of [limit] (1 to 100) are
    checked by the framework before the body runs; the body is defined for
    every integer. *)
Definition list_products (db : option Database)
    (q category : option string) (limit : Z) (sort : option string)
    : Result (list Dict) :=
  match db with
  | None => Return []
  | Some db =>
      let filter_doc : list criterion := [] in
      let filter_doc :=
        match q with
        | Some q' =>
            if decide (q' = "") then filter_doc
            else (filter_doc ++
                    [Or [Regex "title" q' "i"; Regex "description" q' "i"]])%list
        | None => filter_doc
        end in
      let filter_doc :=
        match category with
        | Some category' =>
            if decide (category' = "") then filter_doc
            else (filter_doc ++
                    [Clause (Equals "category" (VStr category'))])%list
        | None => filter_doc
        end in
      let cursor := find (collection db "product") filter_doc in
      let cursor :=
        if decide (sort = Some "price_asc")
        then Cursor_sort "price" ASCENDING cursor
        else if decide (sort = Some "price_desc")
        then Cursor_sort "price" DESCENDING cursor
        else if decide (sort = Some "rating_desc")
        then Cursor_sort "rating" DESCENDING cursor
        else cursor in
      let cursor := Cursor_limit limit cursor in
      ds ← to_list cursor;
      Return (serialize_doc <$> (ds : list Dict))
  end.

Definition get_product (db : option Database) (product_id : string)
    : Result Dict :=
  match db with
  | None => Raise (HTTPException 404 "Not found")
  | Some db =>
      match ObjectId_init product_id with
      | None => Raise (HTTPException 400 "Invalid product id")
      | Some oid =>
          doc ← find_one_by_id (collection db "product") oid;
          match doc with
          | Some doc =>
              if decide (doc = ∅)
              then Raise (HTTPException 404 "Product not found")
              else Return (serialize_doc doc)
          | None => Raise (HTTPException 404 "Product not found")
          end
      end
  end.

Definition categories (db : option Database) : Result (list value) :=
  match db with
  | None => Return []
  | Some db =>
      let cats := distinct "category" (collection db "product") in
      sorted (filter (λ c, truthy c = true) cats)
  end.

(** [serialize_doc(None)] is [None], which the response model refuses. *)
Definition create_product (payload : ProductCreate) (db : option Database)
    : option Database * Result Dict :=
  match db with
  | None => (None, Raise (HTTPException 500 "Database not available"))
  | Some db =>
      let '(db, r) := create_document "product" (model_dump payload) db in
      (Some db,
       product_id ← r;
       oid ← match ObjectId_init product_id with
             | Some oid => Return oid
             | None => Raise (Exception "InvalidId")
             end;
       doc ← find_one_by_id (collection db "product") oid;
       match doc with
       | Some doc => Return (serialize_doc doc)
       | None => Raise ResponseValidationError
       end)
  end.

(** [POST /api/products]: the body is validated, then handed over. *)
Definition post_product (body : gmap string json) (db : option Database)
    : option Database * Result Dict :=
  match ProductCreate_validate body with
  | Return payload => create_product payload db
  | Raise e => (db, Raise e)
  end.

(** *** The diagnostic route

    [test_database] updates its dictionary [response] in place, and what
    was assigned before an exception stays assigned.  Its statements are
    computations over that dictionary which end in a value or in an
    exception, kept as the message [str(e)] the handlers print. *)

Definition Check (A : Type) : Type :=
  gmap string json → gmap string json * (string + A).

Global Instance Check_ret : MRet Check := λ A a response,
  (response, inr a).
Global Instance Check_bind : MBind Check := λ A B k c response,
  match c response with
  | (response, inr a) => k a response
  | (response, inl msg) => (response, inl msg)
  end.

Definition raise {A} (msg : string) : Check A := λ response,
  (response, inl msg).

(** [response[k] = v] *)
Definition setitem (k : string) (v : json) : Check unit := λ response,
  (<[k := v]> response, inr ()).

(** [try: body except Exception as e: handler(str(e))] *)
Definition try_except (body : Check unit) (handler : string → Check unit)
    : Check unit := λ response,
  match body response with
  | (response, inr a) => (response, inr a)
  | (response, inl msg) => handler msg response
  end.

(** [hasattr(db, "name")] lets through every exception but
    [AttributeError]. *)
Definition hasattr_name (db : Database) : Check bool :=
  match name db with
  | NoAttribute => mret false
  | HasAttribute _ => mret true
  | AttributeRaises msg => raise msg
  end.

Definition getattr_name (db : Database) : Check string :=
  match name db with
  | NoAttribute => raise "AttributeError"
  | HasAttribute v => mret v
  | AttributeRaises msg => raise msg
  end.

Definition call_list_collection_names (db : Database)
    : Check (list string) :=
  match list_collection_names db with
  | inl msg => raise msg
  | inr collections => mret collections
  end.

(** [_os.getenv(k)], tested for truth: set, and not to the empty string. *)
Definition getenv (environ : gmap string string) (k : string) : bool :=
  match environ !! k with
  | Some v => bool_decide (v ≠ "")
  | None => false
  end.

Definition test_database (db : option Database)
    (environ : gmap string string) : Result (gmap string json) :=
  let response : gmap string json :=
    {[ "backend" := JStr "✅ Running";
       "database" := JStr "❌ Not Available";
       "database_url" := JNull;
       "database_name" := JNull;
       "connection_status" := JStr "Not Connected";
       "collections" := JList [] ]} in
  let body : Check unit :=
    try_except
      (match db with
       | Some db =>
           setitem "database" (JStr "✅ Available");;
           setitem "database_url" (JStr "✅ Configured");;
           has ← hasattr_name db;
           database_name ←
             (if has : bool then getattr_name db else mret "✅ Connected");
           setitem "database_name" (JStr database_name);;
           setitem "connection_status" (JStr "Connected");;
           try_except
             (collections ← call_list_collection_names db;
              setitem "collections" (JList (JStr <$> take 10 collections));;
              setitem "database" (JStr "✅ Connected & Working"))
             (λ e,
                setitem "database"
                  (JStr ("⚠️  Connected but Error: " +:+ str_prefix 50 e)))
       | None =>
           setitem "database" (JStr "⚠️  Available but not initialized")
       end)
      (λ e, setitem "database" (JStr ("❌ Error: " +:+ str_prefix 50 e)));;
    setitem "database_url"
      (JStr (if getenv environ "DATABASE_URL"
             then "✅ Set" else "❌ Not Set"));;
    setitem "database_name"
      (JStr (if getenv environ "DATABASE_NAME"
             then "✅ Set" else "❌ Not Set")) in
  match body response with
  | (response, inr _) => Return response
  | (_, inl msg) => Raise (Exception msg)
  end.

(** *** The data model

    A stored document is a product when it has a store identifier and
    the fields of [ProductOut], each of its type and within its bounds;
    the fields with a default may be missing. *)

Definition Product (d : Dict) : bool :=
  let text (o : option value) : bool :=
    match o with Some (VStr _) => true | _ => false end in
  let optional_text (o : option value) : bool :=
    match o with None | Some VNone | Some (VStr _) => true | _ => false end in
  match d !! "_id" with Some (VOid _) => true | _ => false end
  && text (d !! "title")
  && optional_text (d !! "description")
  && match d !! "price" with
     | Some (VNum x) => bool_decide (float_le (float_of_Z 0) x)
     | _ => false
     end
  && text (d !! "category")
  && match d !! "in_stock" with None | Some (VBool _) => true | _ => false end
  && optional_text (d !! "image")
  && match d !! "rating" with
     | None | Some VNone => true
     | Some (VNum x) =>
         bool_decide (float_le (float_of_Z 0) x)
         && bool_decide (float_le x (float_of_Z 5))
     | _ => false
     end.

(** The price and the rating of a returned record; a record whose rating
    is null or missing has none. *)
Definition price_of (r : Dict) : option float :=
  match r !! "price" with Some (VNum x) => Some x | _ => None end.

Definition rating_of (r : Dict) : option float :=
  match r !! "rating" with Some (VNum x) => Some x | _ => None end.

(** [r1] comes before [r2] in a list of non-decreasing prices. *)
Definition price_le (r1 r2 : Dict) : Prop :=
  match price_of r1, price_of r2 with
  | Some x, Some y => float_le x y
  | _, _ => False
  end.

(** [r1] comes before [r2] in a list of non-increasing ratings, the
    records without a rating last. *)
Definition rating_ge (r1 r2 : Dict) : Prop :=
  match rating_of r1, rating_of r2 with
  | Some x, Some y => float_le y x
  | _, None => True
  | None, Some _ => False
  end.

(** A search query the store accepts. *)
Definition pattern_ok (q : option string) : Prop :=
  match q with
  | Some q' => q' = "" ∨ is_Some (regex q' "i")
  | None => True
  end.

(** A string of pairs of hex digits, each pair with or without white
    space in front of it, and with or without white space at the end. *)
Inductive hex_pairs : string → Prop :=
  | hex_pairs_end : hex_pairs ""
  | hex_pairs_space c s :
      Hex.space c = true → hex_pairs s → hex_pairs (String c s)
  | hex_pairs_byte c1 c2 s :
      is_Some (Hex.value c1) → is_Some (Hex.value c2) → hex_pairs s →
      hex_pairs (String c1 (String c2 s)).

(** A string [ObjectId(...)] accepts: 24 characters, pairs of hex
    digits. *)
Definition well_formed (s : string) : Prop :=
  String.length s = 24%nat ∧ hex_pairs s.


(** The records an operation on the store [db] hands to its caller. *)
Definition returned (db : Database) (r : Dict) : Prop :=
  (∃ product_id, get_product (Some db) product_id = Return r) ∨
  (∃ q category limit sort rs,
      list_products (Some db) q category limit sort = Return rs ∧ r ∈ rs) ∨
  (∃ payload db0, create_product payload db0 = (Some db, Return r)).

(** *** Vocabulary of the further properties *)

(** [isinstance(v, ObjectId)] *)
Definition isinstance_ObjectId (v : value) : bool :=
  match v with VOid _ => true | _ => false end.

(** The field [k] of a document is a string the matcher [m] accepts. *)
Definition text_matches (m : string → bool) (k : string) (d : Dict) : bool :=
  match d !! k with Some (VStr s) => m s | _ => false end.

(** What the filter of [list_products] asks of a document: the search
    text, when there is one, is found in the title or in the description,
    and the category, when one is given, is the category of the document.
    An empty text and an empty category ask nothing. *)
Definition selected (q category : option string) (d : Dict) : Prop :=
  match q with
  | Some q' =>
      q' = "" ∨
      ∃ m, regex q' "i" = Some m ∧
           text_matches m "title" d || text_matches m "description" d = true
  | None => True
  end ∧
  match category with
  | Some c => c = "" ∨ d !! "category" = Some (VStr c)
  | None => True
  end.

(** The identifiers of the stored products, in the order of the store. *)
Definition stored_ids (db : Database) : list value :=
  omap (λ d : Dict, d !! "_id") (collection db "product").

(** [len(s)] on a UTF-8 string: the number of its code points. *)
Fixpoint str_len (s : string) : nat :=
  match s with
  | "" => 0
  | String c s' => if continuation c then str_len s' else S (str_len s')
  end.

(** *** [PyObjectId]

    [ObjectId.is_valid(v)] refuses what is false and what the constructor
    refuses, with [InvalidId] or with [TypeError]. *)
Definition ObjectId_is_valid (v : value) : bool :=
  truthy v &&
  match v with
  | VOid _ => true
  | VStr s => bool_decide (is_Some (ObjectId_init s))
  | _ => false
  end.

(** [ObjectId(v).binary] for a value that is there. *)
Definition ObjectId_of_value (v : value) : Result (list byte) :=
  match v with
  | VOid o => Return (binary o)
  | VStr s =>
      match ObjectId_init s with
      | Some oid => Return oid
      | None => Raise (Exception "InvalidId")
      end
  | _ => Raise (Exception "TypeError")
  end.

(** [PyObjectId.validate(v)], the instance it returns given by its
    bytes; the exception is [ValueError("Invalid ObjectId")]. *)
Definition PyObjectId_validate (v : value) : Result (list byte) :=
  match v with
  | VOid o => Return (binary o)
  | _ =>
      if ObjectId_is_valid v then ObjectId_of_value v
      else Raise (Exception "ValueError")
  end.

(** ** Identifiers: printing and parsing *)

Lemma to_byte_of_byte (b : byte) :
  Hex.to_byte (Hex.digit (Byte.to_N b / 16))
              (Hex.digit (Byte.to_N b mod 16)) = Some b.
Proof. destruct b; reflexivity. Qed.

Lemma value_not_space (c : ascii) :
  is_Some (Hex.value c) → Hex.space c = false.
Proof.
  destruct c as [[] [] [] [] [] [] [] []];
    first [reflexivity | intros [n Hn]; discriminate Hn].
Qed.

Lemma fromhex_space (c : ascii) (s : string) :
  Hex.space c = true → Hex.fromhex (String c s) = Hex.fromhex s.
Proof. intros Hc. cbn [Hex.fromhex]. by rewrite Hc. Qed.

Lemma fromhex_pair (c1 c2 : ascii) (s : string) :
  Hex.space c1 = false →
  Hex.fromhex (String c1 (String c2 s))
  = b ← Hex.to_byte c1 c2; l ← Hex.fromhex s; Some (b :: l).
Proof. intros Hc. cbn [Hex.fromhex]. by rewrite Hc. Qed.

Lemma fromhex_single (c : ascii) :
  Hex.space c = false → Hex.fromhex (String c "") = None.
Proof. intros Hc. cbn [Hex.fromhex]. by rewrite Hc. Qed.

Lemma fromhex_hex (l : list byte) : Hex.fromhex (Hex.hex l) = Some l.
Proof.
  induction l as [|b l IH]; [done|].
  change (Hex.hex (b :: l)) with (Hex.of_byte b (Hex.hex l)).
  unfold Hex.of_byte. rewrite fromhex_pair.
  - by rewrite to_byte_of_byte, IH.
  - apply value_not_space. destruct b; simpl; eauto.
Qed.

Lemma length_hex (l : list byte) :
  String.length (Hex.hex l) = (2 * length l)%nat.
Proof. induction l as [|b l IH]; simpl; [done|]. rewrite IH. lia. Qed.

Lemma ObjectId_of_bytes_binary (o : ObjectId) :
  ObjectId_of_bytes (binary o) = Some o.
Proof. by destruct o. Qed.

Lemma ObjectId_of_bytes_Some (l : list byte) (o : ObjectId) :
  ObjectId_of_bytes l = Some o → l = binary o.
Proof.
  do 13 (destruct l as [|? l]; try done). by intros [= <-].
Qed.

Lemma ObjectId_of_bytes_is_Some (l : list byte) :
  is_Some (ObjectId_of_bytes l) ↔ length l = 12%nat.
Proof.
  split.
  - intros [o ->%ObjectId_of_bytes_Some]. by destruct o.
  - intros Hl. by do 13 (destruct l as [|? l]; try done).
Qed.

(** The constructor takes what [str] printed, and gives the bytes back. *)
Lemma ObjectId_init_str (o : ObjectId) :
  ObjectId_init (ObjectId_str o) = Some (binary o).
Proof.
  unfold ObjectId_init, ObjectId_str.
  by rewrite fromhex_hex, decide_True by (by rewrite length_hex; destruct o).
Qed.

Lemma ObjectId_of_str_str (o : ObjectId) :
  ObjectId_of_str (ObjectId_str o) = Some o.
Proof.
  unfold ObjectId_of_str. rewrite ObjectId_init_str. simpl.
  apply ObjectId_of_bytes_binary.
Qed.

Lemma ObjectId_of_str_init (s : string) (o : ObjectId) :
  ObjectId_of_str s = Some o ↔ ObjectId_init s = Some (binary o).
Proof.
  unfold ObjectId_of_str. split.
  - destruct (ObjectId_init s) as [l|]; simpl; [|done].
    by intros ->%ObjectId_of_bytes_Some.
  - intros ->. apply ObjectId_of_bytes_binary.
Qed.

(** Induction on a string, the way [bytes.fromhex] reads it. *)
Lemma fromhex_ind (P : string → Prop) :
  P "" →
  (∀ c s, Hex.space c = true → P s → P (String c s)) →
  (∀ c, Hex.space c = false → P (String c "")) →
  (∀ c1 c2 s, Hex.space c1 = false → P s → P (String c1 (String c2 s))) →
  ∀ s, P s.
Proof.
  intros Hend Hspace Hsingle Hpair s.
  cut (P s ∧ ∀ c, P (String c s)); [by intros [? _]|].
  induction s as [|c s [IH1 IH2]].
  - split; [done|]. intros c. destruct (Hex.space c) eqn:Hc; auto.
  - split; [apply IH2|]. intros c'. destruct (Hex.space c') eqn:Hc'; auto.
Qed.

Lemma value_lt_16 (c : ascii) (n : N) : Hex.value c = Some n → (n < 16)%N.
Proof.
  destruct c as [[] [] [] [] [] [] [] []]; simpl; intros [= <-]; lia.
Qed.

Lemma to_byte_is_Some (c1 c2 : ascii) :
  is_Some (Hex.to_byte c1 c2) ↔
  is_Some (Hex.value c1) ∧ is_Some (Hex.value c2).
Proof.
  unfold Hex.to_byte. split.
  - intros [b Hb].
    destruct (Hex.value c1), (Hex.value c2); simplify_eq/=; eauto.
  - intros [[hi Hhi] [lo Hlo]]. rewrite Hhi, Hlo. simpl.
    apply value_lt_16 in Hhi, Hlo.
    destruct (Byte.of_N (16 * hi + lo)) eqn:E; [eauto|].
    apply Byte.of_N_None_iff in E. lia.
Qed.

(** What [bytes.fromhex] accepts. *)
Lemma fromhex_is_Some (s : string) :
  is_Some (Hex.fromhex s) ↔ hex_pairs s.
Proof.
  split.
  - induction s as [|c s Hc IH|c Hc|c1 c2 s Hc IH] using fromhex_ind.
    + constructor.
    + rewrite fromhex_space by done. intros ?%IH. by apply hex_pairs_space.
    + rewrite fromhex_single by done. by intros [? ?].
    + rewrite fromhex_pair by done.
      destruct (Hex.to_byte c1 c2) as [b|] eqn:Hb; [|by intros [? ?]].
      destruct (Hex.fromhex s) as [l|]; [|by intros [? ?]]. intros _.
      assert (is_Some (Hex.to_byte c1 c2)) as [? ?]%to_byte_is_Some by eauto.
      apply hex_pairs_byte; eauto.
  - induction 1 as [|c s Hc _ IH|c1 c2 s H1 H2 _ [l Hl]].
    + by eexists.
    + by rewrite fromhex_space.
    + rewrite fromhex_pair by by apply value_not_space.
      destruct (proj2 (to_byte_is_Some c1 c2) (conj H1 H2)) as [b ->].
      rewrite Hl. by eexists.
Qed.

(** Every byte takes two characters, and white space takes more. *)
Lemma fromhex_length (s : string) (l : list byte) :
  Hex.fromhex s = Some l →
  (2 * length l ≤ String.length s)%nat ∧
  ((2 * length l)%nat = String.length s ↔
   Forall (λ c, is_Some (Hex.value c)) (list_ascii_of_string s)).
Proof.
  revert l.
  induction s as [|c s Hc IH|c Hc|c1 c2 s Hc IH] using fromhex_ind; intros l.
  - intros [= <-]. split; [done|]. split; [constructor|done].
  - rewrite fromhex_space by done. intros [Hle _]%IH.
    cbn [String.length list_ascii_of_string]. split; [lia|]. split; [lia|].
    intros [Hdigit%value_not_space _]%Forall_cons. congruence.
  - by rewrite fromhex_single.
  - rewrite fromhex_pair by done.
    destruct (Hex.to_byte c1 c2) as [b|] eqn:Hb; [|done].
    destruct (Hex.fromhex s) as [l'|]; [|done]. intros [= <-].
    destruct (IH l' eq_refl) as [Hle Heq].
    assert (is_Some (Hex.to_byte c1 c2)) as [? ?]%to_byte_is_Some by eauto.
    cbn [String.length list_ascii_of_string length]. split; [lia|].
    rewrite !Forall_cons, <-Heq. split; [intros ?; split_and!; [done..|lia]|].
    intros (_ & _ & ?). lia.
Qed.

Lemma well_formed_parses (s : string) :
  well_formed s ↔ is_Some (ObjectId_init s).
Proof.
  unfold well_formed, ObjectId_init. rewrite <-fromhex_is_Some.
  case_decide; [by split; [intros [_ ?]|]|].
  split; [by intros [? _]|by intros [? ?]].
Qed.

(** The instance has twelve bytes for 24 hex digits, and fewer for a
    string with white space. *)
Lemma ObjectId_init_length (s : string) (oid : list byte) :
  ObjectId_init s = Some oid →
  (length oid ≤ 12)%nat ∧
  (length oid = 12%nat ↔
   Forall (λ c, is_Some (Hex.value c)) (list_ascii_of_string s)).
Proof.
  unfold ObjectId_init. case_decide as Hlen; [|done].
  intros [Hle Heq]%fromhex_length. rewrite Hlen in *. split; [lia|].
  rewrite <-Heq. lia.
Qed.

(** Induction on a string, two characters at a time. *)
Lemma string_pair_ind (P : string → Prop) :
  P "" →
  (∀ c, P (String c "")) →
  (∀ c1 c2 s, P s → P (String c1 (String c2 s))) →
  ∀ s, P s.
Proof.
  intros H0 H1 H2 s.
  cut (P s ∧ ∀ c, P (String c s)); [by intros [? _]|].
  induction s as [|c s [IH1 IH2]]; [by split|].
  split; [apply IH2|]. intros c'. by apply H2.
Qed.

Lemma hex_pairs_digits (s : string) :
  Nat.Even (String.length s) →
  Forall (λ c, is_Some (Hex.value c)) (list_ascii_of_string s) →
  hex_pairs s.
Proof.
  induction s as [|c|c1 c2 s IH] using string_pair_ind;
    cbn [String.length list_ascii_of_string].
  - constructor.
  - intros [n Hn]. lia.
  - intros [n Hn] Hdigits.
    apply Forall_cons in Hdigits as [H1 Hdigits].
    apply Forall_cons in Hdigits as [H2 Hdigits].
    apply hex_pairs_byte; [done..|]. apply IH; [|done].
    exists (n - 1)%nat. lia.
Qed.

Lemma ObjectId_of_str_is_Some (s : string) :
  is_Some (ObjectId_of_str s) ↔
  String.length s = 24%nat ∧
  Forall (λ c, is_Some (Hex.value c)) (list_ascii_of_string s).
Proof.
  unfold ObjectId_of_str. split.
  - destruct (ObjectId_init s) as [l|] eqn:Hl; simpl; [|by intros [? ?]].
    intros Hsome%ObjectId_of_bytes_is_Some.
    split; [|by apply (ObjectId_init_length s l)].
    unfold ObjectId_init in Hl. by case_decide.
  - intros [Hlen Hdigits].
    assert (hex_pairs s) as [l Hl]%fromhex_is_Some.
    { apply hex_pairs_digits; [|done]. exists 12%nat. lia. }
    unfold ObjectId_init. rewrite decide_True, Hl by done. simpl.
    apply ObjectId_of_bytes_is_Some.
    apply fromhex_length in Hl as [_ Heq]. apply Heq in Hdigits. lia.
Qed.

(** ** Queries by identifier *)

Lemma run_by_id (documents : list Dict) (v : value) :
  v ≠ VNone →
  run documents [Clause (Equals "_id" v)]
  = Return (filter (has_id v) documents).
Proof.
  intros Hv. unfold run. simpl. f_equal.
  apply list_filter_iff. intros d. unfold has_id.
  rewrite andb_true_r, bool_decide_eq_true.
  split; [intros [?|[? _]]; [done|congruence]|by left].
Qed.

Lemma filter_has_id_nil (documents : list Dict) (v : value) :
  ¬ Exists (has_id v) documents → filter (has_id v) documents = [].
Proof.
  intros Hno. induction documents as [|d ds IH]; [done|].
  rewrite filter_cons. case_decide.
  - destruct Hno. by left.
  - apply IH. intros ?. destruct Hno. by right.
Qed.

Lemma filter_has_id_head (documents : list Dict) (v : value) :
  Exists (has_id v) documents →
  ∃ d, head (filter (has_id v) documents) = Some d ∧
       d ∈ documents ∧ has_id v d.
Proof.
  induction 1 as [d ds Hd|d ds _ IH]; rewrite filter_cons; case_decide.
  - exists d. split_and!; [done|left|done].
  - done.
  - exists d. split_and!; [done|left|done].
  - destruct IH as (d' & Hhead & Hin & Hid). exists d'.
    split_and!; [done|by right|done].
Qed.

Lemma find_one_by_id_binary (documents : list Dict) (o : ObjectId) :
  find_one_by_id documents (binary o)
  = find_one documents [Clause (Equals "_id" (VOid o))].
Proof. unfold find_one_by_id. by rewrite ObjectId_of_bytes_binary. Qed.

(** [get_product] on a string that stands for an ObjectId. *)
Lemma get_product_by_str (db : Database) (product_id : string) oid :
  ObjectId_of_str product_id = Some oid →
  get_product (Some db) product_id
  = doc ← find_one (collection db "product")
            [Clause (Equals "_id" (VOid oid))];
    match doc with
    | Some doc =>
        if decide (doc = ∅)
        then Raise (HTTPException 404 "Product not found")
        else Return (serialize_doc doc)
    | None => Raise (HTTPException 404 "Product not found")
    end.
Proof.
  intros Hoid%ObjectId_of_str_init. unfold get_product.
  by rewrite Hoid, find_one_by_id_binary.
Qed.



Lemma get_product_absent (db : Database) (product_id : string) oid :
  ObjectId_of_str product_id = Some oid →
  ¬ Exists (has_id (VOid oid)) (collection db "product") →
  get_product (Some db) product_id
  = Raise (HTTPException 404 "Product not found").
Proof.
  intros Hoid Hno. rewrite (get_product_by_str db product_id oid Hoid).
  unfold find_one. by rewrite run_by_id, filter_has_id_nil.
Qed.

Lemma get_product_present (db : Database) (product_id : string) oid :
  ObjectId_of_str product_id = Some oid →
  Exists (has_id (VOid oid)) (collection db "product") →
  ∃ d, d ∈ collection db "product" ∧ has_id (VOid oid) d ∧
       get_product (Some db) product_id = Return (serialize_doc d).
Proof.
  intros Hoid (d & Hhd & Hd & Hid)%filter_has_id_head.
  exists d. split_and!; [done..|].
  rewrite (get_product_by_str db product_id oid Hoid).
  unfold find_one. rewrite run_by_id by done.
  simpl. rewrite Hhd. rewrite decide_False; [done|].
  intros ->. unfold has_id in Hid. by rewrite lookup_empty in Hid.
Qed.


(** ** The claims on [get_product] *)

(** C10: when the store is unavailable, [get_product] fails with the
    not-found error (404) on every string, well-formed or not; the
    invalid-identifier error (400) does not occur. *)
Theorem get_product_unavailable (product_id : string) :
  get_product None product_id = Raise (HTTPException 404 "Not found").
Proof. done. Qed.

(** ** Degraded mode *)

(** C6: when the store is unavailable, [list_products] returns the empty
    sequence whatever its query parameters are, and so does
    [categories]; neither raises. *)
Theorem unavailable_lists_are_empty
    (q category : option string) (limit : Z) (sort : option string) :
  list_products None q category limit sort = Return [] ∧
  categories None = Return [].
Proof. done. Qed.

(** ** What the routes return *)

Lemma run_elem_of (documents ds : list Dict) (f : list criterion) d :
  run documents f = Return ds → d ∈ ds → d ∈ documents.
Proof.
  unfold run. destruct (compile f); intros [= <-].
  by intros [_ ?]%list_elem_of_filter.
Qed.

Lemma find_one_elem_of (documents : list Dict) (f : list criterion) d :
  find_one documents f = Return (Some d) → d ∈ documents.
Proof.
  unfold find_one. destruct (run documents f) as [|ds] eqn:Hrun; [done|].
  simpl. intros [= Hd]. apply (run_elem_of _ ds f); [done|].
  destruct ds; simplify_eq/=. left.
Qed.

Lemma find_one_by_id_elem_of (documents : list Dict) (oid : list byte) d :
  find_one_by_id documents oid = Return (Some d) → d ∈ documents.
Proof.
  unfold find_one_by_id. destruct (ObjectId_of_bytes oid); [|done].
  apply find_one_elem_of.
Qed.

Lemma apply_sort_Permutation o (ds : list Dict) : apply_sort o ds ≡ₚ ds.
Proof. destruct o as [[k dir]|]; [apply merge_sort_Permutation|done]. Qed.

Lemma apply_limit_sublist (n : Z) (ds : list Dict) :
  apply_limit n ds `sublist_of` ds.
Proof. unfold apply_limit. case_decide; [done|apply sublist_take]. Qed.

(** The query [list_products] sends to the store. *)
Lemma list_products_run (db : Database) (q category : option string)
    (limit : Z) (sort : option string) :
  ∃ f o,
    list_products (Some db) q category limit sort
    = match run (collection db "product") f with
      | Return ds =>
          Return (serialize_doc <$> apply_limit limit (apply_sort o ds))
      | Raise e => Raise e
      end ∧
    (pattern_ok q → is_Some (compile f)) ∧
    (sort = Some "price_asc" → o = Some ("price", ASCENDING)) ∧
    (sort = Some "price_desc" → o = Some ("price", DESCENDING)) ∧
    (sort = Some "rating_desc" → o = Some ("rating", DESCENDING)) ∧
    (sort ∉ [Some "price_asc"; Some "price_desc"; Some "rating_desc"] →
     o = None).
Proof.
  unfold list_products, pattern_ok.
  destruct q as [q'|]; repeat case_decide; destruct category as [c|];
    repeat case_decide; subst;
    unfold to_list, Cursor_limit, Cursor_sort, find;
    cbn [c_documents c_filter c_sort c_limit];
    lazymatch goal with
    | |- context [run _ ?F] =>
        lazymatch goal with
        | |- context [apply_sort ?O] => exists F, O
        end
    end;
    (split; [by destruct (run _ _)|]);
    (split; [|split_and!; first [done | by intros [=] | idtac];
              intros Hs; exfalso; apply Hs; set_solver]).
  all: intros Hq; unfold compile; simpl;
    try (destruct Hq as [Hq|[m Hm]]; [congruence|rewrite Hm]);
    simpl; eauto.
Qed.

(** ** Serialization *)

Lemma serialize_doc_with_id (d : Dict) (o : ObjectId) :
  d !! "_id" = Some (VOid o) →
  serialize_doc d
  = stringify <$> <["id" := VStr (ObjectId_str o)]> (delete "_id" d).
Proof.
  intros Hid. unfold serialize_doc. rewrite decide_False.
  - by rewrite Hid, decide_False.
  - intros ->. by rewrite lookup_empty in Hid.
Qed.

Lemma returned_serialized (db : Database) (r : Dict) :
  returned db r → ∃ d, d ∈ collection db "product" ∧ r = serialize_doc d.
Proof.
  intros [(product_id & Hget)
         | [(q & c & l & s & rs & Hlist & Hr) | (payload & db0 & Hcreate)]].
  - unfold get_product in Hget.
    destruct (ObjectId_init product_id) as [oid|]; [|done].
    destruct (find_one_by_id _ _) as [|[d|]] eqn:Hf; simpl in Hget; try done.
    case_decide; simplify_eq. eauto using find_one_by_id_elem_of.
  - destruct (list_products_run db q c l s) as (f & o & Heq & _).
    rewrite Heq in Hlist.
    destruct (run _ f) as [|ds] eqn:Hrun; simplify_eq.
    apply list_elem_of_fmap in Hr as (d & -> & Hd). exists d. split; [|done].
    apply (run_elem_of _ ds f); [done|].
    rewrite <-(apply_sort_Permutation o).
    by eapply elem_of_sublist; [|apply apply_limit_sublist].
  - unfold create_product in Hcreate. destruct db0 as [db0|]; [|done].
    destruct (create_document _ _ db0) as [db' res].
    injection Hcreate as -> Hres.
    destruct res as [e|product_id]; [done|].
    unfold mbind, Result_bind in Hres.
    destruct (ObjectId_init product_id) as [oid|]; [|done].
    destruct (find_one_by_id _ oid) as [|[d|]] eqn:Hf; simplify_eq.
    eauto using find_one_by_id_elem_of.
Qed.

(** C7: every record an operation returns is the serialized form of a
    stored record: the store identifier of the stored record is
    printed as a string under the key ["id"], the key ["_id"] is gone,
    and every other field holding a store identifier holds its string
    instead, the remaining fields being left as they are. *)
Theorem serialize_doc_uniform (db : Database) (r : Dict) :
  returned db r →
  ∃ d, d ∈ collection db "product" ∧ r = serialize_doc d ∧
    ∀ o, d !! "_id" = Some (VOid o) →
      r !! "id" = Some (VStr (ObjectId_str o)) ∧
      r !! "_id" = None ∧
      ∀ k, k ≠ "_id" → k ≠ "id" →
        r !! k = match d !! k with
                 | Some (VOid o') => Some (VStr (ObjectId_str o'))
                 | other => other
                 end.
Proof.
  intros (d & Hd & ->)%returned_serialized.
  exists d. split_and!; [done..|]. intros o Hid.
  rewrite (serialize_doc_with_id d o Hid). split_and!.
  - by rewrite lookup_fmap, lookup_insert_eq.
  - by rewrite lookup_fmap, lookup_insert_ne, lookup_delete_eq.
  - intros k ? ?.
    rewrite lookup_fmap, lookup_insert_ne, lookup_delete_ne by done.
    by destruct (d !! k) as [[]|].
Qed.

(** ** Creating a product *)

Lemma collection_advance (db : Database) (c : string) :
  collection (advance db) c = collection db c.
Proof. done. Qed.

Lemma collection_append (db : Database) (c c' : string) (d : Dict) :
  collection (append c d db) c'
  = if decide (c = c') then collection db c ++ [d] else collection db c'.
Proof.
  unfold collection at 1. simpl. rewrite lookup_insert.
  by case_decide; subst.
Qed.

Lemma create_document_fresh (c : string) (data : Dict) (db : Database) :
  ¬ Exists (has_id (VOid (pending db 0))) (collection db c) →
  create_document c data db
  = (append c (<["_id" := VOid (pending db 0)]> data) (advance db),
     Return (ObjectId_str (pending db 0))).
Proof.
  intros Hfresh. unfold create_document, insert_one.
  by rewrite collection_advance, decide_False.
Qed.

Lemma create_document_duplicate (c : string) (data : Dict) (db : Database) :
  Exists (has_id (VOid (pending db 0))) (collection db c) →
  create_document c data db
  = (advance db, Raise (Exception "DuplicateKeyError")).
Proof.
  intros Hdup. unfold create_document, insert_one.
  by rewrite collection_advance, decide_True.
Qed.

Lemma filter_has_id_fresh (documents : list Dict) (v : value) (d : Dict) :
  ¬ Exists (has_id v) documents → has_id v d →
  filter (has_id v) (documents ++ [d]) = [d].
Proof.
  intros Hfresh Hd.
  by rewrite filter_app, filter_has_id_nil, filter_cons, decide_True.
Qed.

Lemma stringify_model_dump (payload : ProductCreate) :
  stringify <$> model_dump payload = model_dump payload.
Proof.
  unfold model_dump. rewrite !fmap_insert, map_fmap_singleton.
  by destruct (description payload), (image payload), (rating payload).
Qed.

Lemma serialize_doc_stored (payload : ProductCreate) (o : ObjectId) :
  serialize_doc (<["_id" := VOid o]> (model_dump payload))
  = <["id" := VStr (ObjectId_str o)]> (model_dump payload).
Proof.
  rewrite (serialize_doc_with_id _ o) by apply lookup_insert_eq.
  rewrite delete_insert_eq, delete_id by done.
  by rewrite fmap_insert, stringify_model_dump.
Qed.

Lemma find_one_appended (db : Database) (d : Dict) (oid : ObjectId) :
  ¬ Exists (has_id (VOid oid)) (collection db "product") →
  has_id (VOid oid) d →
  find_one (collection (append "product" d (advance db)) "product")
    [Clause (Equals "_id" (VOid oid))] = Return (Some d).
Proof.
  intros Hfresh Hd. unfold find_one. rewrite run_by_id by done.
  rewrite collection_append, decide_True, collection_advance by done.
  by rewrite filter_has_id_fresh.
Qed.

Lemma create_product_fresh (db : Database) (payload : ProductCreate) :
  ¬ Exists (has_id (VOid (pending db 0))) (collection db "product") →
  create_product payload (Some db)
  = (Some (append "product"
             (<["_id" := VOid (pending db 0)]> (model_dump payload))
             (advance db)),
     Return (<["id" := VStr (ObjectId_str (pending db 0))]>
               (model_dump payload))).
Proof.
  intros Hfresh. unfold create_product.
  rewrite create_document_fresh by done.
  cbn [mbind Result_bind]. rewrite ObjectId_init_str.
  cbn [mbind Result_bind]. rewrite find_one_by_id_binary.
  rewrite find_one_appended; [|done|apply lookup_insert_eq].
  cbn [mbind Result_bind]. by rewrite serialize_doc_stored.
Qed.

Lemma create_product_taken (db : Database) (payload : ProductCreate) :
  Exists (has_id (VOid (pending db 0))) (collection db "product") →
  create_product payload (Some db)
  = (Some (advance db), Raise (Exception "DuplicateKeyError")).
Proof.
  intros Htaken. unfold create_product.
  by rewrite create_document_duplicate.
Qed.

Lemma get_product_appended (db : Database) (d : Dict) (oid : ObjectId) :
  ¬ Exists (has_id (VOid oid)) (collection db "product") →
  has_id (VOid oid) d →
  get_product (Some (append "product" d (advance db))) (ObjectId_str oid)
  = Return (serialize_doc d).
Proof.
  intros Hfresh Hd.
  rewrite (get_product_by_str _ _ oid) by apply ObjectId_of_str_str.
  rewrite find_one_appended by done. cbn [mbind Result_bind].
  rewrite decide_False; [done|].
  intros ->. unfold has_id in Hd. by rewrite lookup_empty in Hd.
Qed.

(** C1: [create_product] returns a record exactly when the identifier
    the driver generates is one no stored record has.  The record it
    returns has the seven fields of the payload, each with the value the
    payload gives it, and besides them only ["id"], the string of the
    new identifier: an identifier no stored record had, on which
    [get_product] found nothing before and returns this very record
    afterwards. *)
Theorem create_then_get (db : Database) (payload : ProductCreate) :
  ((∃ db' r, create_product payload (Some db) = (db', Return r)) ↔
   ¬ Exists (has_id (VOid (pending db 0))) (collection db "product")) ∧
  ∀ db' r,
    create_product payload (Some db) = (db', Return r) →
    ∃ db'' product_id oid,
      db' = Some db'' ∧
      r !! "id" = Some (VStr product_id) ∧
      ObjectId_of_str product_id = Some oid ∧
      ¬ Exists (has_id (VOid oid)) (collection db "product") ∧
      get_product (Some db) product_id
      = Raise (HTTPException 404 "Product not found") ∧
      get_product (Some db'') product_id = Return r ∧
      r !! "title" = Some (VStr (title payload)) ∧
      r !! "description" = Some (option_str (description payload)) ∧
      r !! "price" = Some (VNum (price payload)) ∧
      r !! "category" = Some (VStr (category payload)) ∧
      r !! "in_stock" = Some (VBool (in_stock payload)) ∧
      r !! "image" = Some (option_str (image payload)) ∧
      r !! "rating" = Some (option_num (rating payload)) ∧
      dom r = {[ "id"; "title"; "description"; "price"; "category";
                 "in_stock"; "image"; "rating" ]}.
Proof.
  destruct (decide (Exists (has_id (VOid (pending db 0)))
                      (collection db "product"))) as [Htaken|Hfresh].
  { rewrite (create_product_taken db payload Htaken).
    split; [|by intros db' r [= _ ?]].
    split; [by intros (db' & r & [= _ ?])|done]. }
  rewrite (create_product_fresh db payload Hfresh). split.
  { split; [done|]. intros _. eauto. }
  intros db' r [= <- <-].
  exists (append "product"
            (<["_id" := VOid (pending db 0)]> (model_dump payload))
            (advance db)),
         (ObjectId_str (pending db 0)), (pending db 0).
  split_and!; try done.
  - apply ObjectId_of_str_str.
  - apply (get_product_absent db _ (pending db 0));
      [apply ObjectId_of_str_str|done].
  - rewrite get_product_appended; [|done|apply lookup_insert_eq].
    by rewrite serialize_doc_stored.
Qed.

(** ** Validation of the request body *)

Lemma bind_Return {A B} (r : Result A) (k : A → Result B) (b : B) :
  r ≫= k = Return b → ∃ a, r = Return a ∧ k a = Return b.
Proof. destruct r as [e|a]; [done|]. eauto. Qed.

Lemma bind_Raise {A B} (r : Result A) (k : A → Result B) (e : exn) :
  r ≫= k = Raise e → r = Raise e ∨ ∃ a, r = Return a ∧ k a = Raise e.
Proof. destruct r as [e'|a]; simpl; [intros [= ->]; by left|eauto]. Qed.

Lemma fmap_Raise {A B} (f : A → B) (r : Result A) (e : exn) :
  f <$> r = Raise e → r = Raise e.
Proof. destruct r; simpl; congruence. Qed.

Lemma required_str_Return (o : option json) (s : string) :
  required_str o = Return s ↔ o = Some (JStr s).
Proof.
  unfold required_str. split; [|by intros ->].
  destruct o as [[]|]; intros H; by simplify_eq.
Qed.

Lemma required_str_Raise (o : option json) (e : exn) :
  required_str o = Raise e → e = RequestValidationError.
Proof.
  unfold required_str. destruct o as [[]|]; intros H; by simplify_eq.
Qed.

Lemma optional_str_Raise (o : option json) (e : exn) :
  optional_str o = Raise e → e = RequestValidationError.
Proof.
  unfold optional_str. destruct o as [[]|]; intros H; by simplify_eq.
Qed.

Lemma bounded_float_Raise ge le (j : json) (e : exn) :
  bounded_float ge le j = Raise e → e = RequestValidationError.
Proof.
  unfold bounded_float.
  destruct (lax_float j); [case_match|]; intros Hr; by simplify_eq.
Qed.

(** A payload that passes has its two required texts. *)
Lemma ProductCreate_validate_Return (body : gmap string json)
    (payload : ProductCreate) :
  ProductCreate_validate body = Return payload →
  body !! "title" = Some (JStr (title payload)) ∧
  body !! "category" = Some (JStr (category payload)).
Proof.
  unfold ProductCreate_validate.
  intros (t & Ht%required_str_Return & H)%bind_Return.
  apply bind_Return in H as (d & _ & H).
  apply bind_Return in H as (p & _ & H).
  apply bind_Return in H as (c & Hc%required_str_Return & H).
  apply bind_Return in H as (s & _ & H).
  apply bind_Return in H as (i & _ & H).
  apply bind_Return in H as (r & _ & H).
  by simplify_eq/=.
Qed.

(** Validation fails with the validation error, and no other. *)
Lemma ProductCreate_validate_Raise (body : gmap string json) (e : exn) :
  ProductCreate_validate body = Raise e → e = RequestValidationError.
Proof.
  unfold ProductCreate_validate. intros H.
  repeat (apply bind_Raise in H as [H|(? & _ & H)];
          [repeat case_match;
           try (apply fmap_Raise in H);
           first [ by eauto using required_str_Raise, optional_str_Raise,
                        bounded_float_Raise
                 | by simplify_eq ]|]).
  done.
Qed.

(** C2, as amended: [create_product] is not reached, and the request is
    rejected with a validation error, for every payload whose title or
    category is missing or is not a string; an empty title or an empty
    category is no reason to reject: a payload that passes still passes
    when its title, or its category, is replaced by the empty string. *)
Theorem text_fields_required (body : gmap string json)
    (db : option Database) :
  ((∀ s, body !! "title" ≠ Some (JStr s)) ∨
   (∀ s, body !! "category" ≠ Some (JStr s)) →
   post_product body db = (db, Raise RequestValidationError)) ∧
  (∀ payload, ProductCreate_validate body = Return payload →
     ProductCreate_validate (<["title" := JStr ""]> body)
     = Return {| title := ""; description := description payload;
                 price := price payload; category := category payload;
                 in_stock := in_stock payload; image := image payload;
                 rating := rating payload |} ∧
     ProductCreate_validate (<["category" := JStr ""]> body)
     = Return {| title := title payload;
                 description := description payload;
                 price := price payload; category := "";
                 in_stock := in_stock payload; image := image payload;
                 rating := rating payload |}).
Proof.
  split.
  - intros Hmissing. unfold post_product.
    destruct (ProductCreate_validate body) as [e|payload] eqn:Hv.
    + by apply ProductCreate_validate_Raise in Hv as ->.
    + apply ProductCreate_validate_Return in Hv as [Ht Hc].
      by destruct Hmissing as [H|H]; [destruct (H _ Ht)|destruct (H _ Hc)].
  - intros payload Hv.
    destruct (ProductCreate_validate_Return _ _ Hv) as [Ht Hc].
    destruct payload as [t d p c s i r]; cbn [title category] in Ht, Hc.
    cbn [title description price category in_stock image rating].
    unfold ProductCreate_validate in *.
    rewrite !lookup_insert_eq, !lookup_insert_ne by done.
    rewrite Ht, Hc in *. cbn [required_str mbind Result_bind] in *.
    repeat match type of Hv with
           | ?r ≫= _ = _ =>
               destruct r; cbn [mbind Result_bind] in *; [done|]
           end.
    by simplify_eq.
Qed.

(** ** The diagnostic route *)

Lemma test_database_environ (db : option Database)
    (environ environ' : gmap string string) :
  getenv environ' "DATABASE_URL" = getenv environ "DATABASE_URL" →
  getenv environ' "DATABASE_NAME" = getenv environ "DATABASE_NAME" →
  test_database db environ' = test_database db environ.
Proof. intros Hurl Hname. unfold test_database. by rewrite Hurl, Hname. Qed.

(** C8: [test_database] never raises.  Whatever the store does, it
    returns a dictionary with exactly the six keys; what goes wrong
    during the check is text in the field ["database"]; the two
    configuration fields say whether the variable is set and depend on
    nothing else of the environment; and ["collections"] holds the
    first ten collection names at most. *)
Theorem test_database_total (db : option Database)
    (environ : gmap string string) :
  ∃ response,
    test_database db environ = Return response ∧
    dom response
    = {[ "backend"; "database"; "database_url"; "database_name";
         "connection_status"; "collections" ]} ∧
    response !! "database"
    = Some (JStr
        match db with
        | None => "⚠️  Available but not initialized"
        | Some db =>
            match name db, list_collection_names db with
            | AttributeRaises msg, _ => "❌ Error: " +:+ str_prefix 50 msg
            | _, inl msg =>
                "⚠️  Connected but Error: " +:+ str_prefix 50 msg
            | _, inr _ => "✅ Connected & Working"
            end
        end) ∧
    response !! "database_url"
    = Some (JStr (if getenv environ "DATABASE_URL"
                  then "✅ Set" else "❌ Not Set")) ∧
    response !! "database_name"
    = Some (JStr (if getenv environ "DATABASE_NAME"
                  then "✅ Set" else "❌ Not Set")) ∧
    (∀ environ',
       getenv environ' "DATABASE_URL" = getenv environ "DATABASE_URL" →
       getenv environ' "DATABASE_NAME" = getenv environ "DATABASE_NAME" →
       test_database db environ' = Return response) ∧
    ∃ names : list string,
      names = match db with
              | None => []
              | Some db =>
                  match name db, list_collection_names db with
                  | AttributeRaises _, _ | _, inl _ => []
                  | _, inr collections => take 10 collections
                  end
              end ∧
      response !! "collections" = Some (JList (JStr <$> names)) ∧
      (length names ≤ 10)%nat.
Proof.
  destruct db as [db|];
    [destruct (name db) as [|v|msg] eqn:Hname,
       (list_collection_names db) as [msg'|collections] eqn:Hlist|];
    (eexists; split;
     [unfold test_database, hasattr_name, getattr_name,
        call_list_collection_names; rewrite ?Hname, ?Hlist; reflexivity|]);
    (split; [rewrite !dom_insert_L; set_solver|]);
    split_and!; try reflexivity.
  all: lazymatch goal with
       | |- ∃ _, _ =>
           eexists; split_and!;
           [reflexivity | reflexivity
           | first [rewrite length_take; lia | simpl; lia]]
       | |- _ =>
           intros environ' ? ?;
           rewrite (test_database_environ _ environ environ') by done;
           unfold test_database, hasattr_name, getattr_name,
             call_list_collection_names;
           rewrite ?Hname, ?Hlist; reflexivity
       end.
Qed.

(** ** The order of the store *)

Lemma float_bson_le_total : Total float_bson_le.
Proof.
  intros [| |p|] [| |q|]; simpl; auto.
  destruct (total Qcle p q); auto.
Qed.

Lemma bson_le_total : Total bson_le.
Proof.
  intros [|a|x|s|o] [|b|y|t|p]; simpl; try (by left; lia); try (by right; lia).
  - destruct a, b; simpl; auto.
  - apply float_bson_le_total.
  - apply (total String.le).
  - apply (total String.le).
Qed.

Global Instance sort_le_total (k : string) (dir : direction) :
  Total (sort_le k dir).
Proof. intros d1 d2. destruct dir; apply bson_le_total. Qed.

Lemma Sorted_take {A} (R : relation A) (n : nat) (l : list A) :
  Sorted R l → Sorted R (take n l).
Proof.
  intros Hl. revert n. induction Hl as [|x l _ IH Hx]; intros [|n]; simpl;
    try constructor; auto.
  destruct Hx, n; simpl; by constructor.
Qed.

Lemma Sorted_apply_limit (R : relation Dict) (n : Z) (ds : list Dict) :
  Sorted R ds → Sorted R (apply_limit n ds).
Proof. unfold apply_limit. case_decide; auto using Sorted_take. Qed.

(** Mapping a sorted list along a function that is monotone on its
    elements. *)
Lemma Sorted_fmap_Forall {A B} (P : A → Prop) (f : A → B)
    (R1 : relation A) (R2 : relation B) (l : list A) :
  (∀ x y, P x → P y → R1 x y → R2 (f x) (f y)) →
  Forall P l → Sorted R1 l → Sorted R2 (f <$> l).
Proof.
  intros Hf HP Hl. induction Hl as [|x l _ IH Hx]; simpl; [constructor|].
  apply Forall_cons in HP as [Hpx HP]. constructor; [auto|].
  destruct Hx as [|y l Hxy]; simpl; constructor.
  apply Forall_cons in HP as [Hpy _]. auto.
Qed.

(** ** Products and their serialized form *)

Lemma Product_id (d : Dict) : Product d → ∃ o, d !! "_id" = Some (VOid o).
Proof.
  unfold Product. rewrite !andb_True. intros [[[[[[[H _] _] _] _] _] _] _].
  destruct (d !! "_id") as [[]|]; try done. eauto.
Qed.

Lemma serialize_doc_lookup (d : Dict) (k : string) :
  Product d → k ≠ "_id" → k ≠ "id" →
  serialize_doc d !! k = stringify <$> d !! k.
Proof.
  intros [o Ho]%Product_id ? ?.
  rewrite (serialize_doc_with_id d o Ho).
  by rewrite lookup_fmap, lookup_insert_ne, lookup_delete_ne.
Qed.

Lemma Product_price (d : Dict) :
  Product d →
  ∃ x, d !! "price" = Some (VNum x) ∧ float_le (float_of_Z 0) x.
Proof.
  unfold Product. rewrite !andb_True. intros [[[[[_ H] _] _] _] _].
  destruct (d !! "price") as [[]|]; try done.
  apply bool_decide_unpack in H. eauto.
Qed.

Lemma Product_category (d : Dict) :
  Product d → ∃ s, d !! "category" = Some (VStr s).
Proof.
  unfold Product. rewrite !andb_True. intros [[[[_ H] _] _] _].
  destruct (d !! "category") as [[]|]; try done. eauto.
Qed.

Lemma Product_rating (d : Dict) :
  Product d →
  d !! "rating" = None ∨ d !! "rating" = Some VNone ∨
  ∃ x, d !! "rating" = Some (VNum x) ∧
       float_le (float_of_Z 0) x ∧ float_le x (float_of_Z 5).
Proof.
  unfold Product. rewrite !andb_True. intros [_ H].
  destruct (d !! "rating") as [[]|]; try done; auto.
  apply andb_True in H as [?%bool_decide_unpack ?%bool_decide_unpack].
  eauto 10.
Qed.

Lemma Product_price_of (d : Dict) :
  Product d →
  ∃ x, d !! "price" = Some (VNum x) ∧ float_le (float_of_Z 0) x ∧
       price_of (serialize_doc d) = Some x.
Proof.
  intros Hd. destruct (Product_price d Hd) as (x & Hx & H0).
  exists x. split_and!; [done..|].
  unfold price_of. by rewrite serialize_doc_lookup, Hx.
Qed.

Lemma price_asc_serialized (d1 d2 : Dict) :
  Product d1 → Product d2 →
  sort_le "price" ASCENDING d1 d2 →
  price_le (serialize_doc d1) (serialize_doc d2).
Proof.
  intros (x & Hx & H0x & Hpx)%Product_price_of
         (y & Hy & H0y & Hpy)%Product_price_of.
  unfold sort_le, sort_key, price_le. rewrite Hx, Hy, Hpx, Hpy. simpl.
  by destruct x, y.
Qed.

Lemma price_desc_serialized (d1 d2 : Dict) :
  Product d1 → Product d2 →
  sort_le "price" DESCENDING d1 d2 →
  flip price_le (serialize_doc d1) (serialize_doc d2).
Proof.
  intros (x & Hx & H0x & Hpx)%Product_price_of
         (y & Hy & H0y & Hpy)%Product_price_of.
  unfold sort_le, sort_key, flip, price_le. rewrite Hx, Hy, Hpx, Hpy. simpl.
  by destruct x, y.
Qed.

Lemma rating_desc_serialized (d1 d2 : Dict) :
  Product d1 → Product d2 →
  sort_le "rating" DESCENDING d1 d2 →
  rating_ge (serialize_doc d1) (serialize_doc d2).
Proof.
  intros Hd1 Hd2. unfold sort_le, sort_key, rating_ge, rating_of.
  rewrite !serialize_doc_lookup by done.
  destruct (Product_rating d1 Hd1) as [->|[->|(x & -> & H0x & _)]],
           (Product_rating d2 Hd2) as [->|[->|(y & -> & H0y & _)]];
    simpl; try done; try lia.
  by destruct x, y.
Qed.

Lemma result_elem_of (documents : list Dict) (P : Dict → Prop)
    `{∀ d, Decision (P d)} o (n : Z) (d : Dict) :
  d ∈ apply_limit n (apply_sort o (filter P documents)) → d ∈ documents.
Proof.
  intros Hd. eapply elem_of_sublist in Hd; [|apply apply_limit_sublist].
  rewrite apply_sort_Permutation in Hd.
  by apply list_elem_of_filter in Hd as [_ ?].
Qed.

Lemma list_products_Return (db : Database) (q category : option string)
    (limit : Z) (sort : option string) :
  pattern_ok q →
  ∃ (m : Dict → bool) o,
    list_products (Some db) q category limit sort
    = Return (serialize_doc <$>
                apply_limit limit
                  (apply_sort o
                     (filter (λ d, m d = true) (collection db "product")))) ∧
    (sort = Some "price_asc" → o = Some ("price", ASCENDING)) ∧
    (sort = Some "price_desc" → o = Some ("price", DESCENDING)) ∧
    (sort = Some "rating_desc" → o = Some ("rating", DESCENDING)) ∧
    (sort ∉ [Some "price_asc"; Some "price_desc"; Some "rating_desc"] →
     o = None).
Proof.
  intros Hq.
  destruct (list_products_run db q category limit sort)
    as (f & o & Heq & Hf & Ho).
  destruct (Hf Hq) as [m Hm]. exists m, o. split; [|done].
  rewrite Heq. unfold run. by rewrite Hm.
Qed.

(** ** [get_product] on an available store *)



(** ** Sorting *)

(** The filter of [list_products] and what it selects. *)
Lemma list_products_query (db : Database) (q category : option string)
    (limit : Z) :
  ∃ f,
    (∀ sort, ∃ o,
       list_products (Some db) q category limit sort
       = match run (collection db "product") f with
         | Return ds =>
             Return (serialize_doc <$> apply_limit limit (apply_sort o ds))
         | Raise e => Raise e
         end ∧
       (sort = Some "price_asc" → o = Some ("price", ASCENDING)) ∧
       (sort = Some "price_desc" → o = Some ("price", DESCENDING)) ∧
       (sort = Some "rating_desc" → o = Some ("rating", DESCENDING)) ∧
       (sort ∉ [Some "price_asc"; Some "price_desc"; Some "rating_desc"] →
        o = None)) ∧
    (pattern_ok q → is_Some (compile f)) ∧
    (¬ pattern_ok q → compile f = None) ∧
    (∀ m, compile f = Some m → ∀ d, m d = true ↔ selected q category d).
Proof.
  unfold list_products, pattern_ok, selected.
  destruct q as [q'|]; repeat case_decide; destruct category as [c|];
    repeat case_decide; subst;
    lazymatch goal with
    | |- context [find _ ?F] => exists F
    end;
    (split;
     [intros sort; repeat case_decide; subst;
      unfold to_list, Cursor_limit, Cursor_sort, find;
      cbn [c_documents c_filter c_sort c_limit];
      lazymatch goal with
      | |- context [apply_sort ?O] => exists O
      end;
      (split; [by destruct (run _ _)|]);
      split_and!; first [done | by intros [=] | idtac];
      intros Hs; exfalso; apply Hs; set_solver|]).
  all: unfold compile; simpl.
  all: try (destruct (regex q' "i") as [rm|] eqn:Hrm; simpl).
  all: split_and!;
    try (intros Hq; first [ by eauto | by destruct Hq; eauto ]);
    try (intros m [= <-] d; unfold text_matches;
         rewrite ?andb_true_r, ?orb_false_r, ?bool_decide_eq_true;
         split; [intros Hd|intros [Hq Hc]]).
  all: try done.
  all: rewrite ?andb_true_iff, ?bool_decide_eq_true in *;
    repeat match goal with
           | H : _ ∧ _ |- _ => destruct H
           | H : _ ∨ _ |- _ => destruct H
           | H : ∃ _, _ |- _ => destruct H
           end;
    simplify_eq; eauto 10.
Qed.

(** The query of [list_products], when the store accepts it: what it
    selects and the order it asks for. *)
Lemma list_products_selected (db : Database) (q category : option string)
    (limit : Z) (sort : option string) :
  pattern_ok q →
  ∃ (m : Dict → bool) o,
    list_products (Some db) q category limit sort
    = Return (serialize_doc <$>
                apply_limit limit
                  (apply_sort o
                     (filter (λ d, m d = true) (collection db "product")))) ∧
    (∀ d, m d = true ↔ selected q category d) ∧
    (sort = Some "price_asc" → o = Some ("price", ASCENDING)) ∧
    (sort = Some "price_desc" → o = Some ("price", DESCENDING)) ∧
    (sort = Some "rating_desc" → o = Some ("rating", DESCENDING)) ∧
    (sort ∉ [Some "price_asc"; Some "price_desc"; Some "rating_desc"] →
     o = None).
Proof.
  intros Hq.
  destruct (list_products_query db q category limit)
    as (f & Hrun & Hsome & _ & Hsel).
  destruct (Hsome Hq) as [m Hm]. destruct (Hrun sort) as (o & Heq & Ho).
  exists m, o. split_and!; [|by apply Hsel|apply Ho..].
  rewrite Heq. unfold run. by rewrite Hm.
Qed.

Lemma apply_limit_pos (n : Z) (ds : list Dict) :
  (0 < n)%Z → apply_limit n ds = take (Z.to_nat n) ds.
Proof.
  intros Hn. unfold apply_limit. rewrite decide_False by lia.
  f_equal. lia.
Qed.

Lemma float_le_trans : Transitive float_le.
Proof.
  intros [| |p|] [| |q|] [| |r|]; simpl; try done. apply Qcle_trans.
Qed.

Lemma price_le_trans : Transitive price_le.
Proof.
  intros r1 r2 r3. unfold price_le.
  destruct (price_of r1), (price_of r2), (price_of r3); try done.
  apply float_le_trans.
Qed.

Lemma rating_ge_trans : Transitive rating_ge.
Proof.
  intros r1 r2 r3. unfold rating_ge.
  destruct (rating_of r1), (rating_of r2), (rating_of r3); try done.
  intros ? ?. by eapply float_le_trans.
Qed.

(** The first [n] of the documents found, in the order of a sort, as the
    caller sees them: they are sorted, and each of them comes before
    each document that is cut. *)
Lemma sorted_cut (R : relation Dict) (k : string) (dir : direction) (n : nat)
    (found : list Dict) :
  Transitive R →
  (∀ d1 d2, Product d1 → Product d2 → sort_le k dir d1 d2 →
            R (serialize_doc d1) (serialize_doc d2)) →
  Forall Product found →
  ∃ rest,
    (serialize_doc <$> take n (merge_sort (sort_le k dir) found)) ++ rest
      ≡ₚ serialize_doc <$> found ∧
    length (serialize_doc <$> take n (merge_sort (sort_le k dir) found))
    = (n `min` length found)%nat ∧
    Sorted R (serialize_doc <$> take n (merge_sort (sort_le k dir) found)) ∧
    ∀ r r',
      r ∈ serialize_doc <$> take n (merge_sort (sort_le k dir) found) →
      r' ∈ rest → R r r'.
Proof.
  intros HR Hmono Hfound.
  set (all := merge_sort (sort_le k dir) found).
  assert (all ≡ₚ found) as Hperm by apply merge_sort_Permutation.
  assert (StronglySorted R (serialize_doc <$> all)) as Hsorted.
  { apply Sorted_StronglySorted; [done|].
    eapply Sorted_fmap_Forall; [apply Hmono|by rewrite Hperm|].
    apply Sorted_merge_sort, _. }
  rewrite <-(take_drop n all), fmap_app in Hsorted.
  apply StronglySorted_app in Hsorted as (Hcut & Htake & _).
  exists (serialize_doc <$> drop n all). split_and!.
  - by rewrite <-fmap_app, take_drop, Hperm.
  - by rewrite length_fmap, length_take, Hperm.
  - by apply StronglySorted_Sorted.
  - done.
Qed.

(** C4: on a store of products, for a search query the store accepts and
    a positive [limit], [list_products] returns the records of the
    products its filter selects, [limit] of them at most and all of them
    when there are no more.  Under [price_asc] they are the cheapest, by
    non-decreasing price; under [price_desc] the dearest, by
    non-increasing price; under [rating_desc] the best rated, by
    non-increasing rating; under any other value of [sort] and under
    none they are the first in the order of the store, in that order. *)
Theorem list_products_sorted (db : Database) (q category : option string)
    (limit : Z) :
  pattern_ok q →
  Forall Product (collection db "product") →
  (0 < limit)%Z →
  ∃ m : Dict → bool,
    (∀ d, m d = true ↔ selected q category d) ∧
    let found := filter (λ d, m d = true) (collection db "product") in
    (∃ rs rest,
       list_products (Some db) q category limit (Some "price_asc")
       = Return rs ∧
       rs ++ rest ≡ₚ serialize_doc <$> found ∧
       length rs = (Z.to_nat limit `min` length found)%nat ∧
       Sorted price_le rs ∧
       ∀ r r', r ∈ rs → r' ∈ rest → price_le r r') ∧
    (∃ rs rest,
       list_products (Some db) q category limit (Some "price_desc")
       = Return rs ∧
       rs ++ rest ≡ₚ serialize_doc <$> found ∧
       length rs = (Z.to_nat limit `min` length found)%nat ∧
       Sorted (flip price_le) rs ∧
       ∀ r r', r ∈ rs → r' ∈ rest → price_le r' r) ∧
    (∃ rs rest,
       list_products (Some db) q category limit (Some "rating_desc")
       = Return rs ∧
       rs ++ rest ≡ₚ serialize_doc <$> found ∧
       length rs = (Z.to_nat limit `min` length found)%nat ∧
       Sorted rating_ge rs ∧
       ∀ r r', r ∈ rs → r' ∈ rest → rating_ge r r') ∧
    (∀ sort,
       sort ∉ [Some "price_asc"; Some "price_desc"; Some "rating_desc"] →
       list_products (Some db) q category limit sort
       = Return (serialize_doc <$> take (Z.to_nat limit) found)).
Proof.
  intros Hq Hproducts Hlimit.
  destruct (list_products_selected db q category limit None Hq)
    as (m & _ & _ & Hsel & _).
  assert (∀ sort,
            ∃ o,
              list_products (Some db) q category limit sort
              = Return (serialize_doc <$>
                          take (Z.to_nat limit)
                            (apply_sort o
                               (filter (λ d, m d = true)
                                  (collection db "product")))) ∧
              (sort = Some "price_asc" → o = Some ("price", ASCENDING)) ∧
              (sort = Some "price_desc" → o = Some ("price", DESCENDING)) ∧
              (sort = Some "rating_desc" → o = Some ("rating", DESCENDING)) ∧
              (sort ∉ [Some "price_asc"; Some "price_desc";
                       Some "rating_desc"] → o = None)) as Hlist.
  { intros sort.
    destruct (list_products_selected db q category limit sort Hq)
      as (m' & o & -> & Hsel' & Ho).
    exists o. split; [|done]. rewrite apply_limit_pos by done.
    do 4 f_equal. apply list_filter_iff. intros d.
    by rewrite Hsel, Hsel'. }
  exists m. split; [done|]. intros found.
  assert (Forall Product found) as Hfound.
  { apply Forall_forall. intros d [_ Hd]%list_elem_of_filter.
    by eapply Forall_forall in Hproducts. }
  split_and!.
  - destruct (Hlist (Some "price_asc")) as (o & Heq & Ho & _).
    rewrite Heq, (Ho eq_refl).
    destruct (sorted_cut price_le "price" ASCENDING (Z.to_nat limit) found)
      as (rest & ?); [apply price_le_trans|apply price_asc_serialized|done|].
    by eexists _, rest.
  - destruct (Hlist (Some "price_desc")) as (o & Heq & _ & Ho & _).
    rewrite Heq, (Ho eq_refl).
    destruct (sorted_cut (flip price_le) "price" DESCENDING
                (Z.to_nat limit) found) as (rest & ?);
      [apply flip_Transitive, price_le_trans
      |apply price_desc_serialized|done|].
    by eexists _, rest.
  - destruct (Hlist (Some "rating_desc")) as (o & Heq & _ & _ & Ho & _).
    rewrite Heq, (Ho eq_refl).
    destruct (sorted_cut rating_ge "rating" DESCENDING (Z.to_nat limit) found)
      as (rest & ?);
      [apply rating_ge_trans|apply rating_desc_serialized|done|].
    by eexists _, rest.
  - intros sort Hsort.
    destruct (Hlist sort) as (o & Heq & _ & _ & _ & Ho).
    by rewrite Heq, (Ho Hsort).
Qed.

(** ** [sorted] on strings *)

Lemma ltb_false_le (s t : string) : String.ltb s t = false → String.le t s.
Proof.
  unfold String.le, String.ltb, String.leb.
  rewrite (String.compare_antisym s t).
  by destruct (String.compare t s).
Qed.

Lemma ltb_true_le (s t : string) : String.ltb s t = true → String.le s t.
Proof.
  unfold String.le, String.ltb, String.leb. by destruct (String.compare s t).
Qed.

Lemma insort_cons (x y : value) (l : list value) :
  insort x (y :: l)
  = b ← py_lt y x; if b : bool then cons y <$> insort x l else Some (x :: y :: l).
Proof. done. Qed.

Lemma insort_strings (s : string) (ss : list string) :
  StronglySorted String.le ss →
  ∃ ss', insort (VStr s) (VStr <$> ss) = Some (VStr <$> ss') ∧
         ss' ≡ₚ s :: ss ∧ StronglySorted String.le ss'.
Proof.
  induction 1 as [|t ss Hss IH Ht].
  - exists [s]. split_and!; [done..|]. repeat constructor.
  - rewrite fmap_cons, insort_cons.
    change (py_lt (VStr t) (VStr s)) with (Some (String.ltb t s)).
    cbn [mbind option_bind].
    destruct (String.ltb t s) eqn:Hlt.
    + destruct IH as (ss' & -> & Hperm & Hsorted). exists (t :: ss').
      split_and!; [done|by rewrite Hperm; constructor|].
      constructor; [done|]. rewrite Hperm.
      constructor; [by apply ltb_true_le|done].
    + exists (s :: t :: ss). split_and!; [done..|].
      apply ltb_false_le in Hlt.
      constructor; [by constructor|]. constructor; [done|].
      eapply Forall_impl; [done|]. intros u ?. by etrans.
Qed.

Lemma sorted_strings (ss : list string) :
  ∃ ss', sorted (VStr <$> ss) = Return (VStr <$> ss') ∧
         ss' ≡ₚ ss ∧ StronglySorted String.le ss'.
Proof.
  unfold sorted.
  cut (∃ ss', foldr (λ x acc, acc ← acc; insort x acc) (Some [])
                (VStr <$> ss) = Some (VStr <$> ss') ∧
              ss' ≡ₚ ss ∧ StronglySorted String.le ss').
  { intros (ss' & -> & ?). eauto. }
  induction ss as [|s ss (ss' & IH & Hperm & Hsorted)].
  - exists []. split_and!; [done..|]. constructor.
  - rewrite fmap_cons. cbn [foldr]. rewrite IH. cbn [mbind option_bind].
    destruct (insort_strings s ss' Hsorted) as (ss'' & -> & Hperm' & ?).
    exists ss''. split_and!; [done| |done]. by rewrite Hperm', Hperm.
Qed.

Lemma strings_of_values (l : list value) :
  Forall (λ v, ∃ s, v = VStr s) l → ∃ ss, l = VStr <$> ss.
Proof.
  induction 1 as [|v l [s ->] _ [ss ->]]; [by exists []|].
  by exists (s :: ss).
Qed.

(** ** Categories *)

(** C5: on a store of products, [categories] returns the categories of
    the products that are not the empty string, and nothing else, each
    once, in ascending lexicographic order. *)
Theorem categories_sorted_distinct (db : Database) :
  Forall Product (collection db "product") →
  ∃ cs : list string,
    categories (Some db) = Return (VStr <$> cs) ∧
    Sorted String.le cs ∧
    NoDup cs ∧
    ∀ c, c ∈ cs ↔
         c ≠ "" ∧
         ∃ d, d ∈ collection db "product" ∧ d !! "category" = Some (VStr c).
Proof.
  intros Hproducts. unfold categories.
  set (cats := filter _ _).
  assert (∀ v, v ∈ cats ↔
            truthy v = true ∧
            ∃ d, d ∈ collection db "product" ∧ d !! "category" = Some v)
    as Hcats.
  { intros v. unfold cats, distinct.
    rewrite list_elem_of_filter, elem_of_remove_dups, list_elem_of_omap.
    naive_solver. }
  assert (NoDup cats) as Hnodup.
  { apply NoDup_filter, NoDup_remove_dups. }
  destruct (strings_of_values cats) as [ss Hss].
  { apply Forall_forall. intros v (_ & d & Hd & Hv)%Hcats.
    eapply Forall_forall in Hproducts; [|done].
    apply Product_category in Hproducts as [s Hs]. exists s. congruence. }
  clearbody cats. subst cats.
  destruct (sorted_strings ss) as (cs & -> & Hperm & Hsorted).
  exists cs. split_and!; [done|by apply StronglySorted_Sorted| |].
  - rewrite Hperm. by apply (NoDup_fmap_1 VStr).
  - intros c. rewrite Hperm. split.
    + intros Hc. assert (VStr c ∈ VStr <$> ss) as Hin.
      { apply list_elem_of_fmap. eauto. }
      apply Hcats in Hin as [Ht ?]. split; [|done].
      by apply bool_decide_eq_true in Ht.
    + intros [Hne Hd]. assert (VStr c ∈ VStr <$> ss) as Hin.
      { apply Hcats. split; [by apply bool_decide_eq_true|done]. }
      by apply list_elem_of_fmap in Hin as (c' & [= ->] & ?).
Qed.

(** ** Seeding *)

Lemma create_documents_fresh (ps : list Dict) (db : Database) :
  NoDup (pending db <$> seq 0 (length ps)) →
  (∀ i, (i < length ps)%nat →
        ¬ Exists (has_id (VOid (pending db i))) (collection db "product")) →
  ∃ db',
    create_documents ps db = (db', Return ()) ∧
    collection db' "product"
    = collection db "product"
      ++ imap (λ i p, <["_id" := VOid (pending db i)]> p) ps.
Proof.
  revert db. induction ps as [|p ps IH]; intros db Hnodup Hfresh.
  { exists db. split; [done|]. by rewrite app_nil_r. }
  cbn [create_documents length seq fmap list_fmap] in *.
  apply NoDup_cons in Hnodup as [Hhead Hnodup].
  rewrite create_document_fresh by (apply Hfresh; lia).
  set (d := <["_id" := VOid (pending db 0)]> p).
  destruct (IH (append "product" d (advance db))) as (db' & -> & Hcoll).
  - by rewrite <-fmap_S_seq, <-list_fmap_compose in Hnodup.
  - intros i Hi. rewrite collection_append, decide_True by done.
    rewrite Exists_app, Exists_cons, Exists_nil. intros [Hold|[Hnew|[]]].
    + by apply (Hfresh (S i)); [lia|].
    + unfold has_id, d in Hnew. rewrite lookup_insert_eq in Hnew.
      injection Hnew as Hnew. apply Hhead.
      cbn [pending append advance] in Hnew. rewrite Hnew.
      apply list_elem_of_fmap. exists (S i). split; [done|].
      apply elem_of_seq. lia.
  - exists db'. split; [done|].
    rewrite Hcoll, collection_append, decide_True by done.
    by rewrite collection_advance, <-app_assoc.
Qed.

(** C9: the startup hook, run on a reachable store without a product,
    inserts the six sample products, each under the identifier the
    driver generated for it; [categories] then returns the four
    categories of the samples in order. *)
Theorem seed_then_categories (db : Database) :
  collection db "product" = [] →
  NoDup (pending db <$> seq 0 6) →
  ∃ db',
    seed_products (Some db) = Some db' ∧
    collection db' "product"
    = imap (λ i p, <["_id" := VOid (pending db i)]> p) sample_products ∧
    categories (Some db')
    = Return [VStr "Electronics"; VStr "Fashion"; VStr "Home & Kitchen";
              VStr "Office"].
Proof.
  intros Hempty Hnodup.
  destruct (create_documents_fresh sample_products db) as (db' & Hcreate & Hcoll).
  - done.
  - intros i _. rewrite Hempty. by intros ?%Exists_nil.
  - rewrite Hempty in Hcoll. exists db'. split_and!; [|done|].
    + unfold seed_products. rewrite Hempty.
      change (count_documents [] []) with (Return (A:=nat) 0).
      cbv beta iota. by rewrite decide_True, Hcreate.
    + unfold categories. rewrite Hcoll. reflexivity.
Qed.

(** ** Further properties of [serialize_doc] *)

Lemma stringify_idemp (v : value) : stringify (stringify v) = stringify v.
Proof. by destruct v. Qed.

Lemma serialize_doc_unfold (d : Dict) :
  d ≠ ∅ →
  serialize_doc d
  = stringify <$> match d !! "_id" with
                  | Some v =>
                      if decide (v = VNone) then d
                      else <["id" := VStr (py_str v)]> (delete "_id" d)
                  | None => d
                  end.
Proof. intros Hd. unfold serialize_doc. by rewrite decide_False. Qed.

(** X1: a serialized document holds no ObjectId, under any key, whatever
    the document was. *)
Theorem serialize_doc_no_ObjectId (d : Dict) (k : string) (v : value) :
  serialize_doc d !! k = Some v → isinstance_ObjectId v = false.
Proof.
  destruct (decide (d = ∅)) as [->|Hd].
  - unfold serialize_doc. rewrite decide_True by done. by rewrite lookup_empty.
  - rewrite serialize_doc_unfold, lookup_fmap by done.
    intros (w & _ & ->)%fmap_Some. by destruct w.
Qed.

(** X2: serializing twice is serializing once. *)
Theorem serialize_doc_idemp (d : Dict) :
  serialize_doc (serialize_doc d) = serialize_doc d.
Proof.
  destruct (decide (d = ∅)) as [->|Hd].
  { unfold serialize_doc. by rewrite !decide_True. }
  rewrite (serialize_doc_unfold d Hd).
  set (out := match d !! "_id" with Some _ => _ | None => _ end).
  assert (out ≠ ∅) as Hout.
  { unfold out. destruct (d !! "_id") as [v|]; [case_decide|]; try done.
    apply insert_non_empty. }
  assert (out !! "_id" = None ∨ out !! "_id" = Some VNone) as Hid.
  { unfold out. destruct (d !! "_id") as [v|] eqn:Hv; [case_decide|].
    - subst. by right.
    - left. by rewrite lookup_insert_ne, lookup_delete_eq.
    - by left. }
  rewrite serialize_doc_unfold by (by intros ?%fmap_empty_inv).
  rewrite lookup_fmap.
  assert (stringify <$> (stringify <$> out) = stringify <$> out) as Hidemp.
  { rewrite <-map_fmap_compose. apply map_fmap_ext.
    intros ? ? _. apply stringify_idemp. }
  destruct Hid as [->| ->]; simpl; rewrite ?decide_True by done;
    exact Hidemp.
Qed.

(** X3: the keys of a serialized document are those of the document,
    with ["id"] in the place of ["_id"] when the document has an
    identifier that is not null. *)
Theorem serialize_doc_keys (d : Dict) :
  dom (serialize_doc d)
  = match d !! "_id" with
    | Some v =>
        if decide (v = VNone) then dom d
        else {["id"]} ∪ dom d ∖ {["_id"]}
    | None => dom d
    end.
Proof.
  destruct (decide (d = ∅)) as [->|Hd].
  { unfold serialize_doc. by rewrite decide_True, lookup_empty. }
  rewrite serialize_doc_unfold, dom_fmap_L by done.
  destruct (d !! "_id") as [v|]; [case_decide|]; try done.
  by rewrite dom_insert_L, dom_delete_L.
Qed.

(** ** Further properties of [list_products] *)

(** The filter [list_products] builds, and what it selects. *)
Lemma serialize_doc_lookup_other (d : Dict) (k : string) :
  k ≠ "_id" → k ≠ "id" → serialize_doc d !! k = stringify <$> d !! k.
Proof.
  intros ? ?. destruct (decide (d = ∅)) as [->|Hd].
  { unfold serialize_doc. by rewrite decide_True, lookup_empty. }
  rewrite serialize_doc_unfold, lookup_fmap by done.
  destruct (d !! "_id") as [v|]; [case_decide|]; try done.
  by rewrite lookup_insert_ne, lookup_delete_ne.
Qed.

Lemma serialize_doc_text (d : Dict) (k s : string) :
  k ≠ "_id" → k ≠ "id" →
  d !! k = Some (VStr s) → serialize_doc d !! k = Some (VStr s).
Proof. intros ? ? Hk. by rewrite serialize_doc_lookup_other, Hk. Qed.

Lemma text_matches_serialized (m : string → bool) (k : string) (d : Dict) :
  k ≠ "_id" → k ≠ "id" →
  text_matches m k d = true → text_matches m k (serialize_doc d) = true.
Proof.
  intros ? ?. unfold text_matches.
  rewrite serialize_doc_lookup_other by done. by destruct (d !! k) as [[]|].
Qed.

(** What [list_products] returns, when it returns: the stored documents
    its filter selects, sorted and cut, in serialized form. *)
Lemma list_products_inv (db : Database) (q category : option string)
    (limit : Z) (sort : option string) (rs : list Dict) :
  list_products (Some db) q category limit sort = Return rs →
  ∃ (m : Dict → bool) o,
    (∀ d, m d = true ↔ selected q category d) ∧
    rs = serialize_doc <$>
           apply_limit limit
             (apply_sort o
                (filter (λ d, m d = true) (collection db "product"))).
Proof.
  destruct (list_products_query db q category limit)
    as (f & Hrun & _ & _ & Hsel).
  destruct (Hrun sort) as (o & -> & _). unfold run.
  destruct (compile f) as [m|]; [|done]. intros [= <-]. eauto.
Qed.

Lemma result_elem_of_filter (documents : list Dict) (m : Dict → bool) o
    (n : Z) (d : Dict) :
  d ∈ apply_limit n (apply_sort o (filter (λ d, m d = true) documents)) →
  m d = true.
Proof.
  intros Hd. eapply elem_of_sublist in Hd; [|apply apply_limit_sublist].
  rewrite apply_sort_Permutation in Hd.
  by apply list_elem_of_filter in Hd as [? _].
Qed.

Lemma apply_limit_all (n : Z) (ds : list Dict) :
  (Z.of_nat (length ds) ≤ n)%Z → apply_limit n ds = ds.
Proof.
  intros Hn. unfold apply_limit. case_decide; [done|].
  apply take_ge. lia.
Qed.

(** X4: a positive [limit] bounds the number of records returned. *)
Theorem list_products_limit (db : Database) (q category : option string)
    (limit : Z) (sort : option string) (rs : list Dict) :
  (0 < limit)%Z →
  list_products (Some db) q category limit sort = Return rs →
  (Z.of_nat (length rs) ≤ limit)%Z.
Proof.
  intros Hlimit (m & o & _ & ->)%list_products_inv.
  rewrite length_fmap. unfold apply_limit.
  rewrite decide_False, length_take by lia. lia.
Qed.

(** X5: with a category given, every record returned has exactly that
    category. *)
Theorem list_products_category (db : Database) (q : option string)
    (c : string) (limit : Z) (sort : option string) (rs : list Dict)
    (r : Dict) :
  c ≠ "" →
  list_products (Some db) q (Some c) limit sort = Return rs →
  r ∈ rs →
  r !! "category" = Some (VStr c).
Proof.
  intros Hc (m & o & Hsel & ->)%list_products_inv
         (d & -> & Hd%result_elem_of_filter)%list_elem_of_fmap.
  apply Hsel in Hd as [_ [?|Hd]]; [done|].
  by apply serialize_doc_text.
Qed.

(** X6: with a search text given, every record returned has a title or a
    description in which the store finds the text, letter case apart. *)
Theorem list_products_search (db : Database) (q' : string)
    (category : option string) (limit : Z) (sort : option string)
    (rs : list Dict) (r : Dict) :
  q' ≠ "" →
  list_products (Some db) (Some q') category limit sort = Return rs →
  r ∈ rs →
  ∃ m, regex q' "i" = Some m ∧
       text_matches m "title" r || text_matches m "description" r = true.
Proof.
  intros Hq (m & o & Hsel & ->)%list_products_inv
         (d & -> & Hd%result_elem_of_filter)%list_elem_of_fmap.
  apply Hsel in Hd as [[?|(rm & Hrm & Hd)] _]; [done|].
  exists rm. split; [done|].
  apply orb_true_iff in Hd as [Hd|Hd]; apply orb_true_iff; [left|right];
    by apply text_matches_serialized.
Qed.

(** X7: when [limit] is no less than the number of stored documents,
    every stored document the filter selects is returned. *)
Theorem list_products_complete (db : Database) (q category : option string)
    (limit : Z) (sort : option string) (rs : list Dict) (d : Dict) :
  (Z.of_nat (length (collection db "product")) ≤ limit)%Z →
  list_products (Some db) q category limit sort = Return rs →
  d ∈ collection db "product" →
  selected q category d →
  serialize_doc d ∈ rs.
Proof.
  intros Hlimit (m & o & Hsel & ->)%list_products_inv Hd Hselected.
  apply list_elem_of_fmap. exists d. split; [done|].
  rewrite apply_limit_all.
  - rewrite apply_sort_Permutation. apply list_elem_of_filter.
    split; [by apply Hsel|done].
  - rewrite apply_sort_Permutation.
    pose proof (length_filter (λ d, m d = true) (collection db "product")).
    lia.
Qed.

(** X8: a search text the store rejects as a pattern makes the request
    fail; the handler does not catch the failure. *)
Theorem list_products_bad_pattern (db : Database) (q' : string)
    (category : option string) (limit : Z) (sort : option string) :
  q' ≠ "" → regex q' "i" = None →
  list_products (Some db) (Some q') category limit sort
  = Raise (Exception "OperationFailure").
Proof.
  intros Hq Hregex.
  destruct (list_products_query db (Some q') category limit)
    as (f & Hrun & _ & Hbad & _).
  destruct (Hrun sort) as (o & -> & _). unfold run. rewrite Hbad; [done|].
  intros [?|[m Hm]]; congruence.
Qed.

(** X9: when [limit] is no less than the number of stored documents,
    [sort] decides the order of the records and nothing else: two sort
    values give the same records. *)
Theorem list_products_sort_Permutation (db : Database)
    (q category : option string) (limit : Z) (sort1 sort2 : option string)
    (rs1 rs2 : list Dict) :
  (Z.of_nat (length (collection db "product")) ≤ limit)%Z →
  list_products (Some db) q category limit sort1 = Return rs1 →
  list_products (Some db) q category limit sort2 = Return rs2 →
  rs1 ≡ₚ rs2.
Proof.
  intros Hlimit.
  destruct (list_products_query db q category limit) as (f & Hrun & _).
  destruct (Hrun sort1) as (o1 & -> & _), (Hrun sort2) as (o2 & -> & _).
  destruct (run _ f) as [|ds] eqn:Hds; [done|]. intros [= <-] [= <-].
  assert (length ds ≤ length (collection db "product"))%nat as Hlen.
  { unfold run in Hds. destruct (compile f); simplify_eq. apply length_filter. }
  rewrite !apply_limit_all
    by (rewrite apply_sort_Permutation; lia).
  by rewrite !apply_sort_Permutation.
Qed.

(** X10: an empty search text and an empty category are no filter at
    all. *)
Theorem list_products_empty_filters (db : option Database)
    (q category : option string) (limit : Z) (sort : option string) :
  list_products db (Some "") category limit sort
  = list_products db None category limit sort ∧
  list_products db q (Some "") limit sort
  = list_products db q None limit sort.
Proof.
  destruct db as [db|]; [|done]. unfold list_products.
  split; [done|]. by destruct q as [q'|]; [case_decide|].
Qed.

(** ** Further properties of [get_product] and [create_product] *)

Lemma get_product_collection (db1 db2 : Database) (product_id : string) :
  collection db1 "product" = collection db2 "product" →
  get_product (Some db1) product_id = get_product (Some db2) product_id.
Proof. intros Heq. unfold get_product. by rewrite Heq. Qed.

Lemma list_products_collection (db1 db2 : Database)
    (q category : option string) (limit : Z) (sort : option string) :
  collection db1 "product" = collection db2 "product" →
  list_products (Some db1) q category limit sort
  = list_products (Some db2) q category limit sort.
Proof. intros Heq. unfold list_products. by rewrite Heq. Qed.



(** X13: when the identifier generated for a product is one a stored
    document has, [create_product] fails with the error of the store
    and stores nothing: the collections are as before, and so are the
    answers of [get_product] and [list_products]. *)
Theorem create_product_duplicate (db : Database) (payload : ProductCreate) :
  Exists (has_id (VOid (pending db 0))) (collection db "product") →
  ∃ db',
    create_product payload (Some db)
    = (Some db', Raise (Exception "DuplicateKeyError")) ∧
    (∀ c, collection db' c = collection db c) ∧
    (∀ product_id,
       get_product (Some db') product_id = get_product (Some db) product_id) ∧
    (∀ q category limit sort,
       list_products (Some db') q category limit sort
       = list_products (Some db) q category limit sort).
Proof.
  intros Hdup. exists (advance db). split_and!.
  - unfold create_product. by rewrite create_document_duplicate.
  - done.
  - intros. by apply get_product_collection.
  - intros. by apply list_products_collection.
Qed.

Lemma elem_of_stored_ids (db : Database) (v : value) :
  v ∈ stored_ids db ↔ Exists (has_id v) (collection db "product").
Proof.
  unfold stored_ids. rewrite list_elem_of_omap, Exists_exists. naive_solver.
Qed.

Lemma create_document_stored_ids (data : Dict) (db db' : Database) r :
  create_document "product" data db = (db', r) →
  NoDup (stored_ids db) → NoDup (stored_ids db').
Proof.
  destruct (decide (Exists (has_id (VOid (pending db 0)))
                      (collection db "product"))) as [Hdup|Hfresh].
  - rewrite create_document_duplicate by done. by intros [= <- _].
  - rewrite create_document_fresh by done. intros [= <- _] Hnodup.
    unfold stored_ids.
    rewrite collection_append, decide_True, collection_advance by done.
    rewrite omap_app. simpl. rewrite lookup_insert_eq. simpl.
    apply NoDup_app. split_and!; [done| |apply NoDup_singleton].
    intros v Hv ->%list_elem_of_singleton.
    by apply Hfresh, elem_of_stored_ids.
Qed.

Lemma create_documents_stored_ids (ps : list Dict) (db db' : Database) r :
  create_documents ps db = (db', r) →
  NoDup (stored_ids db) → NoDup (stored_ids db').
Proof.
  revert db. induction ps as [|p ps IH]; intros db; simpl.
  { by intros [= <- _]. }
  destruct (create_document "product" p db) as [db1 [e|s]] eqn:Hcreate.
  - intros [= <- _]. by eapply create_document_stored_ids.
  - intros Hrest Hnodup. apply (IH db1); [done|].
    by eapply create_document_stored_ids.
Qed.

(** X14: no two stored products get the same identifier: if the
    identifiers in the store are distinct, they still are after
    [create_product], whatever its outcome, and after [seed_products]. *)
Theorem stored_ids_stay_distinct (db : Database) :
  NoDup (stored_ids db) →
  (∀ payload db' r,
     create_product payload (Some db) = (Some db', r) →
     NoDup (stored_ids db')) ∧
  (∀ db', seed_products (Some db) = Some db' → NoDup (stored_ids db')).
Proof.
  intros Hnodup. split.
  - intros payload db' r. unfold create_product.
    destruct (create_document _ _ db) as [db1 r1] eqn:Hcreate.
    intros [= <- _]. by eapply create_document_stored_ids.
  - intros db'. unfold seed_products.
    destruct (count_documents _ _) as [|count]; [by intros [= <-]|].
    case_decide; [|by intros [= <-]].
    destruct (create_documents sample_products db) as [db1 r1] eqn:Hcreate.
    intros [= <-]. by eapply create_documents_stored_ids.
Qed.

(** ** Further properties of the validation *)

Lemma bounded_float_Return ge le (j : json) (x : float) :
  bounded_float ge le j = Return x →
  lax_float j = Some x ∧ float_le ge x ∧
  from_option (float_le x) True le.
Proof.
  unfold bounded_float. destruct (lax_float j) as [y|]; [|done].
  destruct (bool_decide (float_le ge y)) eqn:Hge; [|done].
  destruct le as [b|]; simpl.
  - destruct (bool_decide (float_le y b)) eqn:Hle; [|done].
    intros [= <-]. by apply bool_decide_eq_true in Hge, Hle.
  - intros [= <-]. by apply bool_decide_eq_true in Hge.
Qed.

Lemma ProductCreate_validate_in_bounds (body : gmap string json)
    (payload : ProductCreate) :
  ProductCreate_validate body = Return payload →
  float_le (float_of_Z 0) (price payload) ∧
  from_option
    (λ x, float_le (float_of_Z 0) x ∧ float_le x (float_of_Z 5))
    True (rating payload).
Proof.
  unfold ProductCreate_validate.
  intros (t & _ & H)%bind_Return.
  apply bind_Return in H as (d & _ & H).
  apply bind_Return in H as (p & Hp & H).
  apply bind_Return in H as (c & _ & H).
  apply bind_Return in H as (s & _ & H).
  apply bind_Return in H as (i & _ & H).
  apply bind_Return in H as (r & Hr & H).
  simplify_eq/=. split.
  - destruct (body !! "price") as [j|]; [|done].
    by apply bounded_float_Return in Hp as (_ & ? & _).
  - destruct (body !! "rating") as [j|]; [|by simplify_eq].
    assert (∀ j', Some <$> bounded_float (float_of_Z 0) (Some (float_of_Z 5)) j'
                  = Return r →
                  from_option
                    (λ x, float_le (float_of_Z 0) x ∧ float_le x (float_of_Z 5))
                    True r) as Hbounded.
    { intros j'. destruct (bounded_float _ _ j') as [|x] eqn:Hx; [done|].
      intros [= <-]. by apply bounded_float_Return in Hx as (_ & ? & ?). }
    destruct j; try (by eapply Hbounded). by simplify_eq.
Qed.

(** X15: a payload that passes validation is within the bounds of its
    fields: its price is a number not below 0 (so not NaN), and its
    rating, when it has one, is between 0 and 5. *)
Theorem ProductCreate_validate_bounds (body : gmap string json)
    (payload : ProductCreate) :
  ProductCreate_validate body = Return payload →
  float_le (float_of_Z 0) (price payload) ∧
  from_option
    (λ x, float_le (float_of_Z 0) x ∧ float_le x (float_of_Z 5))
    True (rating payload).
Proof. apply ProductCreate_validate_in_bounds. Qed.

(** X16: a field the schema does not name is ignored: it changes neither
    whether the body passes nor the payload that comes out. *)
Theorem ProductCreate_validate_extra_field (body : gmap string json)
    (k : string) (v : json) :
  k ∉ ["title"; "description"; "price"; "category"; "in_stock"; "image";
       "rating"] →
  ProductCreate_validate (<[k := v]> body) = ProductCreate_validate body.
Proof.
  intros Hk. unfold ProductCreate_validate.
  by rewrite !lookup_insert_ne by (intros ->; apply Hk; set_solver).
Qed.

(** X17: the defaults of the schema: a body without ["in_stock"] is in
    stock, a body without ["rating"] is rated 4.5 whereas a null rating
    stays null, and a description or an image that is missing or null is
    [None]. *)
Theorem ProductCreate_validate_defaults (body : gmap string json)
    (payload : ProductCreate) :
  ProductCreate_validate body = Return payload →
  (body !! "in_stock" = None → in_stock payload = true) ∧
  (body !! "rating" = None → rating payload = Some (decimal 45 10)) ∧
  (body !! "rating" = Some JNull → rating payload = None) ∧
  (body !! "description" = None ∨ body !! "description" = Some JNull →
   description payload = None) ∧
  (body !! "image" = None ∨ body !! "image" = Some JNull →
   image payload = None).
Proof.
  unfold ProductCreate_validate.
  intros (t & _ & H)%bind_Return.
  apply bind_Return in H as (d & Hd & H).
  apply bind_Return in H as (p & _ & H).
  apply bind_Return in H as (c & _ & H).
  apply bind_Return in H as (s & Hs & H).
  apply bind_Return in H as (i & Hi & H).
  apply bind_Return in H as (r & Hr & H).
  simplify_eq/=. split_and!.
  - intros Hnone. rewrite Hnone in Hs. by simplify_eq.
  - intros Hnone. rewrite Hnone in Hr. by simplify_eq.
  - intros Hnull. rewrite Hnull in Hr. by simplify_eq.
  - intros [Hnone|Hnone]; rewrite Hnone in Hd; by simplify_eq/=.
  - intros [Hnone|Hnone]; rewrite Hnone in Hi; by simplify_eq/=.
Qed.

(** X18: the body is validated before the store is looked at: a body that
    fails validation gets the validation error and leaves the state as
    it is, whether the store is available or not, and a body that passes
    gets the error 500 when the store is unavailable. *)
Theorem post_product_errors (body : gmap string json)
    (db : option Database) :
  (∀ e, ProductCreate_validate body = Raise e →
        post_product body db = (db, Raise RequestValidationError)) ∧
  (∀ payload, ProductCreate_validate body = Return payload →
        post_product body None
        = (None, Raise (HTTPException 500 "Database not available"))).
Proof.
  unfold post_product. split.
  - intros e He. rewrite He.
    by apply ProductCreate_validate_Raise in He as ->.
  - by intros payload ->.
Qed.

Lemma Product_stored (payload : ProductCreate) (o : ObjectId) :
  float_le (float_of_Z 0) (price payload) →
  from_option
    (λ x, float_le (float_of_Z 0) x ∧ float_le x (float_of_Z 5))
    True (rating payload) →
  Product (<["_id" := VOid o]> (model_dump payload)).
Proof.
  destruct payload as [t d p c s i r]. simpl. intros Hp Hr.
  unfold Product, model_dump. simpl.
  rewrite lookup_insert_eq, !lookup_insert_ne by done.
  cbn [title description price category in_stock image rating].
  repeat (rewrite ?lookup_insert_eq, ?lookup_insert_ne, ?lookup_singleton_eq
            by done).
  rewrite (bool_decide_eq_true_2 _ Hp).
  destruct d, i, r as [x|]; simpl in *; try done;
    destruct Hr as [H0 H5]; apply andb_True; split; by apply bool_decide_pack.
Qed.

(** X19: the data model is an invariant of [POST /api/products]: when
    every stored document is a product, it is so after the request,
    whatever the body was and however the request ended. *)
Theorem post_product_keeps_products (body : gmap string json)
    (db db' : Database) (r : Result Dict) :
  Forall Product (collection db "product") →
  post_product body (Some db) = (Some db', r) →
  Forall Product (collection db' "product").
Proof.
  intros Hproducts. unfold post_product.
  destruct (ProductCreate_validate body) as [e|payload] eqn:Hvalid.
  { by intros [= <- _]. }
  apply ProductCreate_validate_in_bounds in Hvalid as [Hprice Hrating].
  destruct (decide (Exists (has_id (VOid (pending db 0)))
                      (collection db "product"))) as [Hdup|Hfresh].
  - unfold create_product. rewrite create_document_duplicate by done.
    by intros [= <- _].
  - rewrite create_product_fresh by done. intros [= <- _].
    rewrite collection_append, decide_True, collection_advance by done.
    apply Forall_app. split; [done|].
    apply Forall_singleton. by apply Product_stored.
Qed.

(** ** Further properties of [seed_products] *)

Lemma count_documents_all (documents : list Dict) :
  count_documents documents [] = Return (length documents).
Proof.
  unfold count_documents, run. simpl. do 2 f_equal.
  induction documents as [|d ds IH]; [done|].
  by rewrite filter_cons, decide_True, IH.
Qed.

Lemma create_document_prefix (data : Dict) (db db' : Database) r :
  create_document "product" data db = (db', r) →
  collection db "product" `prefix_of` collection db' "product" ∧
  (∀ c, c ≠ "product" → collection db' c = collection db c) ∧
  ((∀ o, Product (<["_id" := VOid o]> data)) →
   Forall Product (collection db "product") →
   Forall Product (collection db' "product")).
Proof.
  destruct (decide (Exists (has_id (VOid (pending db 0)))
                      (collection db "product"))) as [Hdup|Hfresh].
  - rewrite create_document_duplicate by done. by intros [= <- _].
  - rewrite create_document_fresh by done. intros [= <- _]. split_and!.
    + rewrite collection_append, decide_True, collection_advance by done.
      by apply prefix_app_r.
    + intros c Hc. by rewrite collection_append, decide_False.
    + intros Hdata Hproducts.
      rewrite collection_append, decide_True, collection_advance by done.
      apply Forall_app. split; [done|]. by apply Forall_singleton.
Qed.

Lemma create_documents_prefix (ps : list Dict) (db db' : Database) r :
  create_documents ps db = (db', r) →
  collection db "product" `prefix_of` collection db' "product" ∧
  (∀ c, c ≠ "product" → collection db' c = collection db c) ∧
  (Forall (λ p, ∀ o, Product (<["_id" := VOid o]> p)) ps →
   Forall Product (collection db "product") →
   Forall Product (collection db' "product")).
Proof.
  revert db. induction ps as [|p ps IH]; intros db; simpl.
  { intros [= <- _]. by split_and!. }
  destruct (create_document "product" p db) as [db1 [e|s]] eqn:Hcreate;
    apply create_document_prefix in Hcreate as (Hprefix & Hother & Hproducts).
  - intros [= <- _]. split_and!; [done..|].
    intros [Hp _]%Forall_cons. by apply Hproducts.
  - intros (Hprefix' & Hother' & Hproducts')%IH. split_and!.
    + by etrans.
    + intros c Hc. by rewrite Hother', Hother.
    + intros [Hp Hps]%Forall_cons ?. by apply Hproducts', Hproducts.
Qed.

Lemma sample_products_Product :
  Forall (λ p, ∀ o, Product (<["_id" := VOid o]> p)) sample_products.
Proof. repeat constructor; intros o; by vm_compute. Qed.

Lemma seed_products_nonempty (db : Database) :
  collection db "product" ≠ [] → seed_products (Some db) = Some db.
Proof.
  intros Hnonempty. unfold seed_products.
  rewrite count_documents_all, decide_False; [done|].
  by destruct (collection db "product").
Qed.

Lemma seed_products_leaves_products (db : Database) :
  ∃ db', seed_products (Some db) = Some db' ∧ collection db' "product" ≠ [].
Proof.
  destruct (decide (collection db "product" = [])) as [Hempty|Hnonempty].
  - unfold seed_products. rewrite count_documents_all, Hempty.
    rewrite decide_True by done.
    change sample_products
      with (List.hd ∅ sample_products :: List.tl sample_products).
    cbn [create_documents].
    rewrite create_document_fresh by (rewrite Hempty; by intros ?%Exists_nil).
    set (db1 := append _ _ _).
    destruct (create_documents _ db1) as [db' r] eqn:Hcreate.
    exists db'. split; [done|].
    apply create_documents_prefix in Hcreate as ([l Hl] & _).
    rewrite Hl. unfold db1.
    by rewrite collection_append, decide_True, collection_advance, Hempty.
  - exists db. by rewrite seed_products_nonempty.
Qed.

(** X20: [seed_products] only adds: the documents stored before are kept,
    in their place, the other collections are untouched, and a store of
    products stays a store of products. *)
Theorem seed_products_appends (db : Database) :
  ∃ db',
    seed_products (Some db) = Some db' ∧
    collection db "product" `prefix_of` collection db' "product" ∧
    (∀ c, c ≠ "product" → collection db' c = collection db c) ∧
    (Forall Product (collection db "product") →
     Forall Product (collection db' "product")).
Proof.
  unfold seed_products. rewrite count_documents_all.
  case_decide; [|by exists db].
  destruct (create_documents sample_products db) as [db' r] eqn:Hcreate.
  exists db'. split; [done|].
  apply create_documents_prefix in Hcreate as (? & ? & Hproducts).
  split_and!; [done..|]. apply Hproducts, sample_products_Product.
Qed.

(** X21: running the startup hook again changes nothing: a second
    [seed_products] finds the store as the first one left it. *)
Theorem seed_products_idemp (db : option Database) :
  seed_products (seed_products db) = seed_products db.
Proof.
  destruct db as [db|]; [|done].
  destruct (seed_products_leaves_products db) as (db' & -> & Hnonempty).
  by apply seed_products_nonempty.
Qed.

(** ** [sorted] on values of any kind *)

Lemma py_lt_comparable_sym (v w : value) :
  is_Some (py_lt v w) → is_Some (py_lt w v).
Proof. destruct v, w; cbn; intros [? ?]; by eauto. Qed.

Lemma py_lt_comparable_trans (u v w : value) :
  is_Some (py_lt u v) → is_Some (py_lt u w) → is_Some (py_lt v w).
Proof. destruct u, v, w; cbn; intros [? ?] [? ?]; by eauto. Qed.

Lemma py_lt_truthy (v : value) : truthy v = true → is_Some (py_lt v v).
Proof. destruct v; cbn; intros ?; by eauto. Qed.

Lemma insort_Permutation (x : value) (l l' : list value) :
  insort x l = Some l' → l' ≡ₚ x :: l.
Proof.
  revert l'. induction l as [|y l IH]; intros l'.
  { by intros [= <-]. }
  rewrite insort_cons. destruct (py_lt y x) as [[]|]; cbn; [| |done].
  - destruct (insort x l) as [l0|]; cbn; [|done]. intros [= <-].
    rewrite (IH l0) by done. apply perm_swap.
  - by intros [= <-].
Qed.

Lemma insort_comparable (x : value) (l l' : list value) :
  insort x l = Some l' →
  (∀ y z, y ∈ l → z ∈ l → y ≠ z → is_Some (py_lt y z)) →
  ∀ y, y ∈ l → y ≠ x → is_Some (py_lt y x).
Proof.
  destruct l as [|y0 l]; [by intros _ _ y ?%elem_of_nil|].
  rewrite insort_cons. destruct (py_lt y0 x) as [b|] eqn:Hhead; [|done].
  intros _ Hpairwise y Hy Hne.
  destruct (decide (y = y0)) as [->|Hne0]; [by rewrite Hhead|].
  apply (py_lt_comparable_trans y0); [|by rewrite Hhead].
  apply Hpairwise; [left|done|done].
Qed.

Lemma sorted_inv (l l' : list value) :
  sorted l = Return l' →
  l' ≡ₚ l ∧ ∀ y z, y ∈ l → z ∈ l → y ≠ z → is_Some (py_lt y z).
Proof.
  unfold sorted.
  destruct (foldr _ _ l) as [acc|] eqn:Hfold; [|done]. intros [= <-].
  revert acc Hfold. induction l as [|x l IH]; intros acc; cbn [foldr].
  { intros [= <-]. split; [done|]. by intros y z ?%elem_of_nil. }
  destruct (foldr _ _ l) as [acc0|]; [|done]. cbn [mbind option_bind].
  intros Hinsort. destruct (IH acc0 eq_refl) as [Hperm Hpairwise].
  split; [by rewrite (insort_Permutation _ _ _ Hinsort), Hperm|].
  assert (∀ y, y ∈ l → y ≠ x → is_Some (py_lt y x)) as Hx.
  { intros y Hy. apply (insort_comparable x acc0 acc Hinsort).
    - intros y' z'. rewrite !Hperm. apply Hpairwise.
    - by rewrite Hperm. }
  intros y z [->|Hy]%elem_of_cons [->|Hz]%elem_of_cons Hne.
  - done.
  - by apply py_lt_comparable_sym, Hx.
  - by apply Hx.
  - by apply Hpairwise.
Qed.

Lemma elem_of_categories (db : Database) (v : value) :
  v ∈ filter (λ c, truthy c = true)
        (distinct "category" (collection db "product")) ↔
  truthy v = true ∧
  ∃ d, d ∈ collection db "product" ∧ d !! "category" = Some v.
Proof.
  unfold distinct.
  rewrite list_elem_of_filter, elem_of_remove_dups, list_elem_of_omap.
  done.
Qed.

(** X22: whatever is stored, the list [categories] returns holds the
    category values of the stored documents that count as true, and
    nothing else, each once. *)
Theorem categories_members (db : Database) (l : list value) :
  categories (Some db) = Return l →
  NoDup l ∧
  ∀ v, v ∈ l ↔
       truthy v = true ∧
       ∃ d, d ∈ collection db "product" ∧ d !! "category" = Some v.
Proof.
  unfold categories. intros [Hperm _]%sorted_inv. split.
  - rewrite Hperm. apply NoDup_filter, NoDup_remove_dups.
  - intros v. rewrite Hperm. apply elem_of_categories.
Qed.

(** X23: two stored categories that Python cannot order, a text and a
    number say, make [categories] fail with [TypeError]. *)
Theorem categories_unordered (db : Database) (d1 d2 : Dict) (v1 v2 : value) :
  d1 ∈ collection db "product" → d1 !! "category" = Some v1 →
  d2 ∈ collection db "product" → d2 !! "category" = Some v2 →
  truthy v1 = true → truthy v2 = true →
  py_lt v1 v2 = None →
  categories (Some db) = Raise (Exception "TypeError").
Proof.
  intros Hd1 Hv1 Hd2 Hv2 Ht1 Ht2 Hlt.
  destruct (categories (Some db)) as [e|l] eqn:Hcategories.
  - unfold categories, sorted in Hcategories.
    destruct (foldr _ _ _); by simplify_eq.
  - unfold categories in Hcategories.
    apply sorted_inv in Hcategories as [_ Hpairwise].
    destruct (Hpairwise v1 v2) as [b Hb].
    + apply elem_of_categories. split; [done|]. by exists d1.
    + apply elem_of_categories. split; [done|]. by exists d2.
    + intros ->. apply py_lt_truthy in Ht2 as [b Hb]. congruence.
    + congruence.
Qed.

Global Instance String_le_antisym : AntiSymm (=) String.le.
Proof.
  intros s t. unfold String.le, String.leb.
  rewrite (String.compare_antisym t s).
  destruct (String.compare s t) eqn:Hcompare; simpl; try done.
  intros _ _. by apply String.compare_eq_iff.
Qed.

(** X24: on products, what [categories] returns does not depend on the
    order in which the store keeps its documents. *)
Theorem categories_order_independent (db1 db2 : Database) :
  Forall Product (collection db1 "product") →
  collection db1 "product" ≡ₚ collection db2 "product" →
  categories (Some db1) = categories (Some db2).
Proof.
  intros Hproducts1 Hperm.
  assert (Forall Product (collection db2 "product")) as Hproducts2.
  { by rewrite <-Hperm. }
  unfold categories.
  set (cats1 := filter _ (distinct _ (collection db1 _))).
  set (cats2 := filter _ (distinct _ (collection db2 _))).
  assert (NoDup cats1) as Hnodup1 by apply NoDup_filter, NoDup_remove_dups.
  assert (NoDup cats2) as Hnodup2 by apply NoDup_filter, NoDup_remove_dups.
  assert (∀ v, v ∈ cats1 ↔ v ∈ cats2) as Hcats.
  { intros v. unfold cats1, cats2. rewrite !elem_of_categories.
    by setoid_rewrite Hperm. }
  destruct (strings_of_values cats1) as [ss1 Hss1].
  { apply Forall_forall. intros v (_ & d & Hd & Hv)%elem_of_categories.
    eapply Forall_forall in Hproducts1; [|done].
    apply Product_category in Hproducts1 as [s Hs]. exists s. congruence. }
  destruct (strings_of_values cats2) as [ss2 Hss2].
  { apply Forall_forall. intros v (_ & d & Hd & Hv)%elem_of_categories.
    eapply Forall_forall in Hproducts2; [|done].
    apply Product_category in Hproducts2 as [s Hs]. exists s. congruence. }
  clearbody cats1 cats2. subst cats1 cats2.
  destruct (sorted_strings ss1) as (cs1 & -> & Hperm1 & Hsorted1).
  destruct (sorted_strings ss2) as (cs2 & -> & Hperm2 & Hsorted2).
  do 2 f_equal. apply (StronglySorted_unique String.le); [done..|].
  rewrite Hperm1, Hperm2.
  apply NoDup_Permutation; [by apply (NoDup_fmap_1 VStr)..|].
  assert (∀ (s : string) (ss : list string),
            s ∈ ss ↔ VStr s ∈ VStr <$> ss) as Hstr.
  { intros s ss. rewrite list_elem_of_fmap. split; [by eauto|].
    by intros (s' & [= ->] & ?). }
  intros s. by rewrite !Hstr.
Qed.

(** ** Further properties of the diagnostic route *)

Lemma str_len_prefix (n : nat) (s : string) :
  (str_len (str_prefix n s) ≤ n)%nat.
Proof.
  revert n. induction s as [|c s IH]; intros n; simpl; [lia|].
  destruct (continuation c) eqn:Hc; simpl; rewrite ?Hc; [done|].
  destruct n as [|n]; simpl; rewrite ?Hc; [lia|].
  specialize (IH n). lia.
Qed.

Lemma str_len_app (s t : string) :
  str_len (s +:+ t) = (str_len s + str_len t)%nat.
Proof.
  induction s as [|c s IH]; simpl; [done|].
  destruct (continuation c); lia.
Qed.

Lemma test_database_response (db : option Database)
    (environ : gmap string string) :
  ∃ response,
    test_database db environ = Return response ∧
    response !! "backend" = Some (JStr "✅ Running") ∧
    response !! "connection_status"
    = Some (JStr
        match db with
        | None => "Not Connected"
        | Some db =>
            match name db with
            | AttributeRaises _ => "Not Connected"
            | _ => "Connected"
            end
        end) ∧
    response !! "database"
    = Some (JStr
        match db with
        | None => "⚠️  Available but not initialized"
        | Some db =>
            match name db, list_collection_names db with
            | AttributeRaises msg, _ => "❌ Error: " +:+ str_prefix 50 msg
            | _, inl msg =>
                "⚠️  Connected but Error: " +:+ str_prefix 50 msg
            | _, inr _ => "✅ Connected & Working"
            end
        end).
Proof.
  destruct db as [db|];
    [destruct (name db) as [|v|msg] eqn:Hname,
       (list_collection_names db) as [msg'|collections] eqn:Hlist|];
    (eexists; split;
     [unfold test_database, hasattr_name, getattr_name,
        call_list_collection_names; rewrite ?Hname, ?Hlist; reflexivity|]);
    by split_and!.
Qed.

(** X25: the report of [test_database] always shows the backend as
    running, and shows the store as connected exactly when there is a
    store whose name can be read; a failure to list the collections
    leaves it connected. *)
Theorem test_database_connection (db : option Database)
    (environ : gmap string string) (response : gmap string json) :
  test_database db environ = Return response →
  response !! "backend" = Some (JStr "✅ Running") ∧
  ∃ status,
    response !! "connection_status" = Some (JStr status) ∧
    (status = "Connected" ↔
     ∃ db', db = Some db' ∧ ∀ msg, name db' ≠ AttributeRaises msg) ∧
    (status ≠ "Connected" → status = "Not Connected").
Proof.
  destruct (test_database_response db environ)
    as (response' & -> & Hbackend & Hstatus & _).
  intros [= <-]. split; [done|]. eexists. split; [done|].
  destruct db as [db|]; [destruct (name db) eqn:Hname|]; split;
    try done; split; try done.
  - intros _. exists db. split; [done|]. intros msg. by rewrite Hname.
  - intros _. exists db. split; [done|]. intros msg. by rewrite Hname.
  - intros (db' & [= <-] & Hno). by destruct (Hno msg).
  - by intros (db' & [= ] & _).
Qed.

(** X26: the text under ["database"] never grows with the message of an
    exception: it is at most 75 characters long, the longest prefix and
    the 50 characters kept of the message. *)
Theorem test_database_text_bounded (db : option Database)
    (environ : gmap string string) (response : gmap string json) :
  test_database db environ = Return response →
  ∃ text,
    response !! "database" = Some (JStr text) ∧ (str_len text ≤ 75)%nat.
Proof.
  destruct (test_database_response db environ)
    as (response' & -> & _ & _ & Hdatabase).
  intros [= <-]. eexists. split; [done|].
  destruct db as [db|];
    [destruct (name db) as [| |msg], (list_collection_names db) as [msg'|]|];
    rewrite ?str_len_app;
    try pose proof (str_len_prefix 50 msg);
    try pose proof (str_len_prefix 50 msg');
    repeat match goal with
           | |- context [str_len ?s] =>
               lazymatch s with
               | str_prefix _ _ => fail
               | _ => let n := eval vm_compute in (str_len s) in
                      change (str_len s) with n
               end
           end;
    lia.
Qed.

(** ** [PyObjectId] *)

Lemma ObjectId_init_nonempty (s : string) (oid : list byte) :
  ObjectId_init s = Some oid → s ≠ "".
Proof. by intros Hs ->. Qed.

Lemma PyObjectId_validate_str (s : string) :
  PyObjectId_validate (VStr s)
  = match ObjectId_init s with
    | Some oid => Return oid
    | None => Raise (Exception "ValueError")
    end.
Proof.
  unfold PyObjectId_validate, ObjectId_is_valid. simpl.
  destruct (ObjectId_init s) as [oid|] eqn:Hs.
  - rewrite !bool_decide_eq_true_2;
      [done|by eauto|by eapply ObjectId_init_nonempty].
  - rewrite (bool_decide_eq_false_2 (is_Some None)) by (by intros [? ?]).
    by rewrite andb_false_r.
Qed.

(** X27: [PyObjectId.validate] accepts an ObjectId as it is, and a string
    exactly when the constructor of the library takes it: 24 characters
    that are pairs of hex digits, with or without ASCII white space in
    front of a pair and at the end.  The instance it makes of a string
    holds the bytes of the pairs, twelve of them for 24 hex digits and
    fewer for a string with white space.  Every other value it refuses
    with [ValueError], and with no other exception: the check before the
    constructor leaves the constructor nothing to refuse. *)
Theorem PyObjectId_validate_accepts (v : value) :
  (∀ oid, PyObjectId_validate v = Return oid ↔
          (∃ o, v = VOid o ∧ oid = binary o) ∨
          (∃ s, v = VStr s ∧ ObjectId_init s = Some oid)) ∧
  (∀ s, v = VStr s →
        ((∃ oid, PyObjectId_validate v = Return oid) ↔ well_formed s) ∧
        ∀ oid, PyObjectId_validate v = Return oid →
               (length oid ≤ 12)%nat ∧
               (length oid = 12%nat ↔
                Forall (λ c, is_Some (Hex.value c))
                  (list_ascii_of_string s))) ∧
  (∀ e, PyObjectId_validate v = Raise e → e = Exception "ValueError").
Proof.
  destruct v as [|b|x|s|o'].
  - split_and!; [|done|by intros e [= <-]].
    intros oid. split; [done|]. by intros [(? & ? & _)|(? & ? & _)].
  - unfold PyObjectId_validate, ObjectId_is_valid. simpl.
    rewrite andb_false_r. split_and!; [|done|by intros e [= <-]].
    intros oid. split; [done|]. by intros [(? & ? & _)|(? & ? & _)].
  - unfold PyObjectId_validate, ObjectId_is_valid. simpl.
    rewrite andb_false_r. split_and!; [|done|by intros e [= <-]].
    intros oid. split; [done|]. by intros [(? & ? & _)|(? & ? & _)].
  - rewrite PyObjectId_validate_str. split_and!.
    + intros oid. split.
      * destruct (ObjectId_init s) as [oid'|] eqn:Hs; [|done].
        intros [= ->]. right. by exists s.
      * intros [(? & ? & _)|(s' & [= <-] & ->)]; done.
    + intros s' [= <-]. split.
      * rewrite well_formed_parses.
        destruct (ObjectId_init s) as [oid'|]; split; eauto.
        -- by intros [? ?].
        -- by intros [? ?].
      * intros oid. destruct (ObjectId_init s) as [oid'|] eqn:Hs; [|done].
        intros [= ->]. by apply ObjectId_init_length.
    + intros e. destruct (ObjectId_init s); [done|]. by intros [= <-].
  - split_and!; [|done|done].
    intros oid. split.
    + intros [= <-]. left. by exists o'.
    + by intros [(o & [= ->] & ->)|(? & ? & _)].
Qed.

(** X28: the helper and the route agree on identifiers: a printed
    identifier validates to the instance with its bytes, and
    [get_product] answers 400 on exactly the strings
    [PyObjectId.validate] refuses. *)
Theorem PyObjectId_validate_get_product (db : Database) :
  (∀ o, PyObjectId_validate (VStr (ObjectId_str o)) = Return (binary o)) ∧
  (∀ product_id,
     get_product (Some db) product_id
     = Raise (HTTPException 400 "Invalid product id") ↔
     PyObjectId_validate (VStr product_id) = Raise (Exception "ValueError")).
Proof.
  split.
  - intros o. by rewrite PyObjectId_validate_str, ObjectId_init_str.
  - intros product_id. rewrite PyObjectId_validate_str. unfold get_product.
    destruct (ObjectId_init product_id) as [oid|] eqn:Hs; [|done].
    split; [|done]. unfold find_one_by_id.
    destruct (ObjectId_of_bytes oid) as [o|]; [|done].
    unfold find_one. rewrite run_by_id by done. simpl.
    destruct (head _); [by case_decide|done].
Qed.

(** ** Fetching and listing agree *)

Lemma get_product_Return (db : Database) (product_id : string) (r : Dict) :
  get_product (Some db) product_id = Return r →
  ∃ d, d ∈ collection db "product" ∧ r = serialize_doc d.
Proof.
  unfold get_product.
  destruct (ObjectId_init product_id) as [oid|]; [|done].
  destruct (find_one_by_id _ _) as [|[d|]] eqn:Hfind; simpl; try done.
  case_decide; [done|]. intros [= <-]. eauto using find_one_by_id_elem_of.
Qed.

Lemma NoDup_omap_inj {A B} (f : A → option B) (l : list A) (x y : A) v :
  NoDup (omap f l) → x ∈ l → y ∈ l → f x = Some v → f y = Some v → x = y.
Proof.
  induction l as [|a l IH]; intros Hnodup Hx Hy Hfx Hfy.
  { by apply elem_of_nil in Hx. }
  simpl in Hnodup.
  apply elem_of_cons in Hx as [->|Hx]; apply elem_of_cons in Hy as [->|Hy].
  - done.
  - rewrite Hfx in Hnodup. apply NoDup_cons in Hnodup as [[] _].
    apply list_elem_of_omap. eauto.
  - rewrite Hfy in Hnodup. apply NoDup_cons in Hnodup as [[] _].
    apply list_elem_of_omap. eauto.
  - apply IH; [|done..]. destruct (f a); [|done].
    by apply NoDup_cons in Hnodup as [_ ?].
Qed.

(** X29: what can be fetched is listed: a record [get_product] returns
    is among the records [list_products] returns without a filter, when
    [limit] is no less than the number of stored documents. *)
Theorem get_product_listed (db : Database) (product_id : string) (r : Dict)
    (limit : Z) (sort : option string) :
  (Z.of_nat (length (collection db "product")) ≤ limit)%Z →
  get_product (Some db) product_id = Return r →
  ∃ rs, list_products (Some db) None None limit sort = Return rs ∧ r ∈ rs.
Proof.
  intros Hlimit (d & Hd & ->)%get_product_Return.
  destruct (list_products_Return db None None limit sort I)
    as (m0 & o0 & Hlist & _).
  eexists. split; [done|].
  apply list_products_inv in Hlist as (m & o & Hsel & ->).
  apply list_elem_of_fmap. exists d. split; [done|].
  rewrite apply_limit_all.
  - rewrite apply_sort_Permutation. apply list_elem_of_filter.
    split; [by apply Hsel|done].
  - rewrite apply_sort_Permutation.
    pose proof (length_filter (λ d, m d = true) (collection db "product")).
    lia.
Qed.

(** X30: what is listed can be fetched: on a store of products with
    distinct identifiers, every record [list_products] returns carries
    under ["id"] a string on which [get_product] returns that record. *)
Theorem list_products_get (db : Database) (q category : option string)
    (limit : Z) (sort : option string) (rs : list Dict) (r : Dict) :
  Forall Product (collection db "product") →
  NoDup (stored_ids db) →
  list_products (Some db) q category limit sort = Return rs →
  r ∈ rs →
  ∃ product_id,
    r !! "id" = Some (VStr product_id) ∧
    get_product (Some db) product_id = Return r.
Proof.
  intros Hproducts Hnodup (m & o & _ & ->)%list_products_inv
    (d & -> & Hd)%list_elem_of_fmap.
  apply result_elem_of in Hd.
  eapply Forall_forall in Hproducts; [|done].
  destruct (Product_id d Hproducts) as [oid Hid].
  exists (ObjectId_str oid). split.
  { rewrite (serialize_doc_with_id d oid Hid), lookup_fmap.
    by rewrite lookup_insert_eq. }
  destruct (get_product_present db (ObjectId_str oid) oid)
    as (d' & Hd' & Hid' & ->).
  - apply ObjectId_of_str_str.
  - apply Exists_exists. by exists d.
  - do 2 f_equal.
    by apply (NoDup_omap_inj (λ d : Dict, d !! "_id")
                (collection db "product") d' d (VOid oid)).
Qed.

End Catalog.

(** ** The theorems at work

    The properties above, applied to the example store and to concrete
    requests. *)

Lemma create_then_get_witness :
  ¬ Exists (has_id (VOid (pending seeded_db 0)))
      (collection seeded_db "product") ∧
  ∃ db' r,
    create_product plain_repr literal_regex desk_lamp (Some seeded_db)
    = (Some db', Return r) ∧
    r !! "id" = Some (VStr "654f1a2b0000000000000006") ∧
    get_product plain_repr literal_regex (Some seeded_db)
      "654f1a2b0000000000000006"
    = Raise (HTTPException 404 "Product not found") ∧
    get_product plain_repr literal_regex (Some db')
      "654f1a2b0000000000000006" = Return r ∧
    r !! "title" = Some (VStr "Desk Lamp") ∧
    r !! "description" = Some VNone ∧
    r !! "price" = Some (VNum (decimal 2450 100)) ∧
    r !! "category" = Some (VStr "Office") ∧
    r !! "in_stock" = Some (VBool true) ∧
    r !! "image" = Some VNone ∧
    r !! "rating" = Some (VNum (decimal 45 10)).
Proof.
  assert (¬ Exists (has_id (VOid (pending seeded_db 0)))
              (collection seeded_db "product")) as Hfresh
    by (apply (bool_decide_unpack _); vm_compute; exact I).
  destruct (create_then_get plain_repr literal_regex seeded_db desk_lamp)
    as [Hreturns Hrecord].
  destruct (proj2 Hreturns Hfresh) as (db' & r & Hcreate).
  destruct (Hrecord db' r Hcreate)
    as (db'' & product_id & oid & -> & Hid & _ & _ & Hbefore & Hafter
        & Htitle & Hdescription & Hprice & Hcategory & Hstock & Himage
        & Hrating & _).
  assert (match (create_product plain_repr literal_regex desk_lamp
                   (Some seeded_db)).2 with
          | Return r => r !! "id"
          | Raise _ => None
          end = Some (VStr "654f1a2b0000000000000006")) as Hnew
    by reflexivity.
  rewrite Hcreate in Hnew. cbn [snd] in Hnew.
  assert (product_id = "654f1a2b0000000000000006") as ->
    by (rewrite Hid in Hnew; by injection Hnew).
  split; [exact Hfresh|]. exists db'', r.
  split; [exact Hcreate|]. split; [exact Hid|]. split; [exact Hbefore|].
  split; [exact Hafter|]. split; [exact Htitle|].
  split; [exact Hdescription|]. split; [exact Hprice|].
  split; [exact Hcategory|]. split; [exact Hstock|]. split; [exact Himage|].
  exact Hrating.
Defined.

(** C2 as it was stated does not hold: a payload with an empty title passes
    validation and the product is created. *)
Lemma empty_title_accepted :
  let body : gmap string json :=
    {[ "title" := JStr ""; "price" := JNum (decimal 2450 100);
       "category" := JStr "Office" ]} in
  body !! "title" = Some (JStr "") ∧
  ProductCreate_validate json_float json_bool body
  = Return {| title := ""; description := None; price := decimal 2450 100;
              category := "Office"; in_stock := true; image := None;
              rating := Some (decimal 45 10) |} ∧
  (post_product plain_repr literal_regex json_float json_bool body
     (Some empty_db)).2
  = Return (<["id" := VStr "654f1a2b0000000000000000"]>
              (model_dump
                 {| title := ""; description := None;
                    price := decimal 2450 100; category := "Office";
                    in_stock := true; image := None;
                    rating := Some (decimal 45 10) |})).
Proof. split_and!; reflexivity. Qed.

Lemma text_fields_required_witness :
  let missing : gmap string json :=
    {[ "price" := JNum (decimal 2450 100); "category" := JStr "Office" ]} in
  let valid : gmap string json :=
    {[ "title" := JStr "Desk Lamp"; "price" := JNum (decimal 2450 100);
       "category" := JStr "Office" ]} in
  let payload :=
    {| title := "Desk Lamp"; description := None; price := decimal 2450 100;
       category := "Office"; in_stock := true; image := None;
       rating := Some (decimal 45 10) |} in
  ((∀ s, missing !! "title" ≠ Some (JStr s)) ∧
   post_product plain_repr literal_regex json_float json_bool missing
     (Some empty_db)
   = (Some empty_db, Raise RequestValidationError)) ∧
  (ProductCreate_validate json_float json_bool valid = Return payload ∧
   ProductCreate_validate json_float json_bool (<["title" := JStr ""]> valid)
   = Return {| title := ""; description := None; price := decimal 2450 100;
               category := "Office"; in_stock := true; image := None;
               rating := Some (decimal 45 10) |}).
Proof.
  intros missing valid payload.
  assert (∀ s, missing !! "title" ≠ Some (JStr s)) as Hmissing by done.
  assert (ProductCreate_validate json_float json_bool valid = Return payload)
    as Hvalid by reflexivity.
  split; split; [exact Hmissing| |exact Hvalid|].
  - exact (proj1 (text_fields_required plain_repr literal_regex json_float
                    json_bool missing (Some empty_db)) (or_introl Hmissing)).
  - exact (proj1 (proj2 (text_fields_required plain_repr literal_regex
                           json_float json_bool valid None) payload Hvalid)).
Defined.



Lemma list_products_sorted_witness :
  pattern_ok literal_regex None ∧
  Forall Product (collection seeded_db "product") ∧
  (0 < 3)%Z ∧
  (∃ rs rest,
     list_products plain_repr literal_regex (Some seeded_db) None None 3
       (Some "price_asc") = Return rs ∧
     (λ r : Dict, r !! "title") <$> rs
     = [Some (VStr "Ceramic Mug"); Some (VStr "Cotton T-Shirt");
        Some (VStr "Minimalist Sneakers")] ∧
     rs ++ rest ≡ₚ serialize_doc plain_repr <$> collection seeded_db "product" ∧
     Sorted price_le rs ∧
     ∀ r r', r ∈ rs → r' ∈ rest → price_le r r') ∧
  (∃ rs rest,
     list_products plain_repr literal_regex (Some seeded_db) None None 3
       (Some "rating_desc") = Return rs ∧
     (λ r : Dict, r !! "title") <$> rs
     = [Some (VStr "Ceramic Mug"); Some (VStr "Standing Desk");
        Some (VStr "Wireless Headphones")] ∧
     rs ++ rest ≡ₚ serialize_doc plain_repr <$> collection seeded_db "product" ∧
     Sorted rating_ge rs ∧
     ∀ r r', r ∈ rs → r' ∈ rest → rating_ge r r') ∧
  list_products plain_repr literal_regex (Some seeded_db) None None 3 None
  = Return (serialize_doc plain_repr <$>
              take 3 (collection seeded_db "product")).
Proof.
  assert (pattern_ok literal_regex None) as Hq by exact I.
  assert (Forall Product (collection seeded_db "product")) as Hproducts
    by (apply (bool_decide_unpack _); vm_compute; exact I).
  assert (0 < 3)%Z as Hlimit by reflexivity.
  destruct (list_products_sorted plain_repr literal_regex seeded_db None None
              3 Hq Hproducts Hlimit)
    as (m & Hsel & (rs1 & rest1 & Hlist1 & Hperm1 & _ & Hsorted1 & Hcut1)
        & _
        & (rs3 & rest3 & Hlist3 & Hperm3 & _ & Hsorted3 & Hcut3)
        & Hnatural).
  assert (filter (λ d, m d = true) (collection seeded_db "product")
          = collection seeded_db "product") as Hall.
  { generalize (collection seeded_db "product"). intros l.
    induction l as [|d l IH]; [reflexivity|].
    rewrite filter_cons, decide_True, IH; [reflexivity|].
    apply Hsel. split; exact I. }
  rewrite Hall in Hperm1, Hperm3.
  assert ((λ r : Dict, r !! "title") <$>
            match list_products plain_repr literal_regex (Some seeded_db)
                    None None 3 (Some "price_asc") with
            | Return rs => rs
            | Raise _ => []
            end
          = [Some (VStr "Ceramic Mug"); Some (VStr "Cotton T-Shirt");
             Some (VStr "Minimalist Sneakers")]) as Htitles1
    by (vm_compute; reflexivity).
  assert ((λ r : Dict, r !! "title") <$>
            match list_products plain_repr literal_regex (Some seeded_db)
                    None None 3 (Some "rating_desc") with
            | Return rs => rs
            | Raise _ => []
            end
          = [Some (VStr "Ceramic Mug"); Some (VStr "Standing Desk");
             Some (VStr "Wireless Headphones")]) as Htitles3
    by (vm_compute; reflexivity).
  rewrite Hlist1 in Htitles1. rewrite Hlist3 in Htitles3.
  split; [exact Hq|]. split; [exact Hproducts|]. split; [exact Hlimit|].
  split.
  { exists rs1, rest1. split; [exact Hlist1|]. split; [exact Htitles1|].
    split; [exact Hperm1|]. split; [exact Hsorted1|]. exact Hcut1. }
  split.
  { exists rs3, rest3. split; [exact Hlist3|]. split; [exact Htitles3|].
    split; [exact Hperm3|]. split; [exact Hsorted3|]. exact Hcut3. }
  rewrite <-Hall. apply Hnatural.
  apply (bool_decide_unpack _). vm_compute. exact I.
Defined.

Lemma categories_sorted_distinct_witness :
  Forall Product (collection seeded_db "product") ∧
  ∃ cs : list string,
    categories (Some seeded_db) = Return (VStr <$> cs) ∧
    Sorted String.le cs ∧
    NoDup cs ∧
    ∀ c, c ∈ cs ↔
         c ≠ "" ∧
         ∃ d, d ∈ collection seeded_db "product" ∧
              d !! "category" = Some (VStr c).
Proof.
  assert (Forall Product (collection seeded_db "product")) as Hproducts
    by (apply (bool_decide_unpack _); vm_compute; exact I).
  split; [exact Hproducts|].
  exact (categories_sorted_distinct seeded_db Hproducts).
Defined.

Lemma serialize_doc_uniform_witness :
  let r : Dict :=
    <["id" := VStr "654f1a2b0000000000000001"]>
      (sample "Smart Watch"
         "Fitness tracking, heart-rate monitor, and notifications."
         (decimal 89 1) "Electronics"
         "https://images.unsplash.com/photo-1511707171634-5f897ff02aa9?w=800&q=80"
         (decimal 44 10)) in
  returned plain_repr literal_regex seeded_db r ∧
  ∃ d, d ∈ collection seeded_db "product" ∧
       r = serialize_doc plain_repr d ∧
       ∀ o, d !! "_id" = Some (VOid o) →
         r !! "id" = Some (VStr (ObjectId_str o)) ∧
         r !! "_id" = None ∧
         ∀ k, k ≠ "_id" → k ≠ "id" →
           r !! k = match d !! k with
                    | Some (VOid o') => Some (VStr (ObjectId_str o'))
                    | other => other
                    end.
Proof.
  intros r.
  assert (returned plain_repr literal_regex seeded_db r) as Hreturned
    by (left; exists "654f1a2b0000000000000001"; reflexivity).
  split; [exact Hreturned|].
  exact (serialize_doc_uniform plain_repr literal_regex seeded_db r Hreturned).
Defined.

Lemma test_database_total_witness :
  let environ : gmap string string :=
    {[ "DATABASE_URL" := "mongodb://localhost:27017" ]} in
  let environ' : gmap string string :=
    {[ "DATABASE_URL" := "mongodb://db.internal:27017"; "DATABASE_NAME" := "" ]} in
  ∃ response,
    test_database (Some seeded_db) environ = Return response ∧
    response !! "database" = Some (JStr "✅ Connected & Working") ∧
    response !! "database_url" = Some (JStr "✅ Set") ∧
    response !! "database_name" = Some (JStr "❌ Not Set") ∧
    test_database (Some seeded_db) environ' = Return response.
Proof.
  intros environ environ'.
  destruct (test_database_total (Some seeded_db) environ)
    as (response & Hreturn & _ & Hdatabase & Hurl & Hname & Henviron & _).
  exists response. split_and!; [exact Hreturn|exact Hdatabase|exact Hurl
                               |exact Hname|].
  apply Henviron; reflexivity.
Defined.

Lemma seed_then_categories_witness :
  collection empty_db "product" = [] ∧
  NoDup (pending empty_db <$> seq 0 6) ∧
  ∃ db',
    seed_products literal_regex (Some empty_db) = Some db' ∧
    collection db' "product"
    = imap (λ i p, <["_id" := VOid (pending empty_db i)]> p)
           sample_products ∧
    categories (Some db')
    = Return [VStr "Electronics"; VStr "Fashion"; VStr "Home & Kitchen";
              VStr "Office"].
Proof.
  assert (NoDup (pending empty_db <$> seq 0 6)) as Hnodup
    by (apply (bool_decide_unpack _); vm_compute; exact I).
  split; [reflexivity|]. split; [exact Hnodup|].
  exact (seed_then_categories literal_regex empty_db eq_refl Hnodup).
Defined.


(** *** The further properties at work *)

Lemma serialize_doc_no_ObjectId_witness :
  serialize_doc plain_repr
    {[ "_id" := VOid (example_oid 1); "owner" := VOid (example_oid 2) ]}
    !! "owner"
  = Some (VStr "654f1a2b0000000000000002") ∧
  isinstance_ObjectId (VStr "654f1a2b0000000000000002") = false.
Proof.
  assert (serialize_doc plain_repr
            {[ "_id" := VOid (example_oid 1);
               "owner" := VOid (example_oid 2) ]} !! "owner"
          = Some (VStr "654f1a2b0000000000000002")) as Hlookup
    by reflexivity.
  split; [exact Hlookup|].
  exact (serialize_doc_no_ObjectId plain_repr _ _ _ Hlookup).
Defined.

Lemma list_products_limit_witness :
  (0 < 2)%Z ∧
  ∃ rs, list_products plain_repr literal_regex (Some seeded_db) None None 2
          None = Return rs ∧
        (Z.of_nat (length rs) ≤ 2)%Z.
Proof.
  assert (0 < 2)%Z as Hlimit by lia.
  pose (rs := serialize_doc plain_repr <$>
                take 2 (collection seeded_db "product")).
  assert (list_products plain_repr literal_regex (Some seeded_db) None None
            2 None = Return rs) as Hlist by reflexivity.
  split; [exact Hlimit|]. exists rs. split; [exact Hlist|].
  exact (list_products_limit plain_repr literal_regex seeded_db None None 2
           None rs Hlimit Hlist).
Defined.

Lemma list_products_category_witness :
  "Fashion" ≠ "" ∧
  ∃ rs r,
    list_products plain_repr literal_regex (Some seeded_db) None
      (Some "Fashion") 50 None = Return rs ∧
    r ∈ rs ∧
    r !! "category" = Some (VStr "Fashion").
Proof.
  assert ("Fashion" ≠ "") as Hc by done.
  pose (rs := match list_products plain_repr literal_regex (Some seeded_db)
                      None (Some "Fashion") 50 None with
              | Return rs => rs
              | Raise _ => []
              end).
  pose (r := default ∅ (head rs)).
  assert (list_products plain_repr literal_regex (Some seeded_db) None
            (Some "Fashion") 50 None = Return rs) as Hlist by reflexivity.
  assert (r ∈ rs) as Hr
    by (apply (bool_decide_unpack _); vm_compute; exact I).
  split; [exact Hc|]. exists rs, r. split; [exact Hlist|].
  split; [exact Hr|].
  exact (list_products_category plain_repr literal_regex seeded_db None
           "Fashion" 50 None rs r Hc Hlist Hr).
Defined.

Lemma list_products_search_witness :
  "Smart Watch" ≠ "" ∧
  ∃ rs r,
    list_products plain_repr literal_regex (Some seeded_db)
      (Some "Smart Watch") None 50 None = Return rs ∧
    r ∈ rs ∧
    ∃ m, literal_regex "Smart Watch" "i" = Some m ∧
         text_matches m "title" r || text_matches m "description" r = true.
Proof.
  assert ("Smart Watch" ≠ "") as Hq by done.
  pose (rs := match list_products plain_repr literal_regex (Some seeded_db)
                      (Some "Smart Watch") None 50 None with
              | Return rs => rs
              | Raise _ => []
              end).
  pose (r := default ∅ (head rs)).
  assert (list_products plain_repr literal_regex (Some seeded_db)
            (Some "Smart Watch") None 50 None = Return rs) as Hlist
    by reflexivity.
  assert (r ∈ rs) as Hr
    by (apply (bool_decide_unpack _); vm_compute; exact I).
  split; [exact Hq|]. exists rs, r. split; [exact Hlist|].
  split; [exact Hr|].
  exact (list_products_search plain_repr literal_regex seeded_db
           "Smart Watch" None 50 None rs r Hq Hlist Hr).
Defined.

Lemma list_products_complete_witness :
  (Z.of_nat (length (collection seeded_db "product")) ≤ 50)%Z ∧
  ∃ rs d,
    list_products plain_repr literal_regex (Some seeded_db) None
      (Some "Office") 50 (Some "price_asc") = Return rs ∧
    d ∈ collection seeded_db "product" ∧
    selected literal_regex None (Some "Office") d ∧
    serialize_doc plain_repr d ∈ rs.
Proof.
  assert (Z.of_nat (length (collection seeded_db "product")) ≤ 50)%Z
    as Hlimit by (vm_compute; discriminate).
  pose (rs := match list_products plain_repr literal_regex (Some seeded_db)
                      None (Some "Office") 50 (Some "price_asc") with
              | Return rs => rs
              | Raise _ => []
              end).
  pose (d := collection seeded_db "product" !!! 4%nat).
  assert (list_products plain_repr literal_regex (Some seeded_db) None
            (Some "Office") 50 (Some "price_asc") = Return rs) as Hlist
    by reflexivity.
  assert (d ∈ collection seeded_db "product") as Hd
    by (apply (bool_decide_unpack _); vm_compute; exact I).
  assert (selected literal_regex None (Some "Office") d) as Hselected
    by (split; [exact I|right; reflexivity]).
  split; [exact Hlimit|]. exists rs, d. split; [exact Hlist|].
  split; [exact Hd|]. split; [exact Hselected|].
  exact (list_products_complete plain_repr literal_regex seeded_db None
           (Some "Office") 50 (Some "price_asc") rs d Hlimit Hlist Hd
           Hselected).
Defined.

Lemma list_products_bad_pattern_witness :
  "(" ≠ "" ∧
  literal_regex "(" "i" = None ∧
  list_products plain_repr literal_regex (Some seeded_db) (Some "(") None 50
    None
  = Raise (Exception "OperationFailure").
Proof.
  assert ("(" ≠ "") as Hq by done.
  assert (literal_regex "(" "i" = None) as Hregex by reflexivity.
  split; [exact Hq|]. split; [exact Hregex|].
  exact (list_products_bad_pattern plain_repr literal_regex seeded_db "("
           None 50 None Hq Hregex).
Defined.

Lemma list_products_sort_Permutation_witness :
  (Z.of_nat (length (collection seeded_db "product")) ≤ 50)%Z ∧
  ∃ rs1 rs2,
    list_products plain_repr literal_regex (Some seeded_db) None None 50
      (Some "price_asc") = Return rs1 ∧
    list_products plain_repr literal_regex (Some seeded_db) None None 50
      (Some "rating_desc") = Return rs2 ∧
    rs1 ≡ₚ rs2.
Proof.
  assert (Z.of_nat (length (collection seeded_db "product")) ≤ 50)%Z
    as Hlimit by (vm_compute; discriminate).
  pose (rs1 := match list_products plain_repr literal_regex (Some seeded_db)
                       None None 50 (Some "price_asc") with
               | Return rs => rs
               | Raise _ => []
               end).
  pose (rs2 := match list_products plain_repr literal_regex (Some seeded_db)
                       None None 50 (Some "rating_desc") with
               | Return rs => rs
               | Raise _ => []
               end).
  assert (list_products plain_repr literal_regex (Some seeded_db) None None
            50 (Some "price_asc") = Return rs1) as Hlist1 by reflexivity.
  assert (list_products plain_repr literal_regex (Some seeded_db) None None
            50 (Some "rating_desc") = Return rs2) as Hlist2 by reflexivity.
  split; [exact Hlimit|]. exists rs1, rs2.
  split; [exact Hlist1|]. split; [exact Hlist2|].
  exact (list_products_sort_Permutation plain_repr literal_regex seeded_db
           None None 50 (Some "price_asc") (Some "rating_desc") rs1 rs2
           Hlimit Hlist1 Hlist2).
Defined.




Lemma create_product_duplicate_witness :
  Exists (has_id (VOid (pending clashing_db 0)))
    (collection clashing_db "product") ∧
  ∃ db',
    create_product plain_repr literal_regex desk_lamp (Some clashing_db)
    = (Some db', Raise (Exception "DuplicateKeyError")) ∧
    collection db' "product" = collection clashing_db "product".
Proof.
  assert (Exists (has_id (VOid (pending clashing_db 0)))
            (collection clashing_db "product")) as Htaken
    by (apply (bool_decide_unpack _); vm_compute; exact I).
  split; [exact Htaken|].
  destruct (create_product_duplicate plain_repr literal_regex clashing_db
              desk_lamp Htaken) as (db' & Hcreate & Hcollections & _).
  exists db'. split; [exact Hcreate|]. exact (Hcollections "product").
Defined.

Lemma stored_ids_stay_distinct_witness :
  NoDup (stored_ids seeded_db) ∧
  (∀ payload db' r,
     create_product plain_repr literal_regex payload (Some seeded_db)
     = (Some db', r) →
     NoDup (stored_ids db')) ∧
  (∀ db', seed_products literal_regex (Some seeded_db) = Some db' →
          NoDup (stored_ids db')).
Proof.
  assert (NoDup (stored_ids seeded_db)) as Hnodup
    by (apply (bool_decide_unpack _); vm_compute; exact I).
  split; [exact Hnodup|].
  exact (stored_ids_stay_distinct plain_repr literal_regex seeded_db Hnodup).
Defined.

Lemma ProductCreate_validate_bounds_witness :
  ProductCreate_validate json_float json_bool desk_lamp_body
  = Return desk_lamp ∧
  float_le (float_of_Z 0) (price desk_lamp) ∧
  from_option (λ x, float_le (float_of_Z 0) x ∧ float_le x (float_of_Z 5))
    True (rating desk_lamp).
Proof.
  assert (ProductCreate_validate json_float json_bool desk_lamp_body
          = Return desk_lamp) as Hvalid by reflexivity.
  split; [exact Hvalid|].
  exact (ProductCreate_validate_bounds json_float json_bool desk_lamp_body
           desk_lamp Hvalid).
Defined.

Lemma ProductCreate_validate_extra_field_witness :
  ("sku" ∉ ["title"; "description"; "price"; "category"; "in_stock"; "image";
            "rating"]) ∧
  ProductCreate_validate json_float json_bool
    (<["sku" := JStr "DL-1"]> desk_lamp_body)
  = ProductCreate_validate json_float json_bool desk_lamp_body.
Proof.
  assert ("sku" ∉ ["title"; "description"; "price"; "category"; "in_stock";
                   "image"; "rating"]) as Hk
    by (apply (bool_decide_unpack _); vm_compute; exact I).
  split; [exact Hk|].
  exact (ProductCreate_validate_extra_field json_float json_bool
           desk_lamp_body "sku" (JStr "DL-1") Hk).
Defined.

Lemma ProductCreate_validate_defaults_witness :
  ProductCreate_validate json_float json_bool desk_lamp_body
  = Return desk_lamp ∧
  desk_lamp_body !! "in_stock" = None ∧
  in_stock desk_lamp = true ∧
  desk_lamp_body !! "rating" = None ∧
  rating desk_lamp = Some (decimal 45 10).
Proof.
  assert (ProductCreate_validate json_float json_bool desk_lamp_body
          = Return desk_lamp) as Hvalid by reflexivity.
  assert (desk_lamp_body !! "in_stock" = None) as Hstock by reflexivity.
  assert (desk_lamp_body !! "rating" = None) as Hrating by reflexivity.
  destruct (ProductCreate_validate_defaults json_float json_bool
              desk_lamp_body desk_lamp Hvalid) as (H1 & H2 & _).
  split; [exact Hvalid|]. split; [exact Hstock|]. split; [exact (H1 Hstock)|].
  split; [exact Hrating|]. exact (H2 Hrating).
Defined.

Lemma post_product_keeps_products_witness :
  Forall Product (collection seeded_db "product") ∧
  ∃ db' r,
    post_product plain_repr literal_regex json_float json_bool
      desk_lamp_body (Some seeded_db) = (Some db', r) ∧
    Forall Product (collection db' "product").
Proof.
  assert (Forall Product (collection seeded_db "product")) as Hproducts
    by (apply (bool_decide_unpack _); vm_compute; exact I).
  pose (out := post_product plain_repr literal_regex json_float json_bool
                 desk_lamp_body (Some seeded_db)).
  pose (db' := default seeded_db out.1).
  assert (post_product plain_repr literal_regex json_float json_bool
            desk_lamp_body (Some seeded_db) = (Some db', out.2)) as Hpost
    by reflexivity.
  split; [exact Hproducts|]. exists db', out.2. split; [exact Hpost|].
  exact (post_product_keeps_products plain_repr literal_regex json_float
           json_bool desk_lamp_body seeded_db db' out.2 Hproducts Hpost).
Defined.

Lemma categories_members_witness :
  ∃ l,
    categories (Some seeded_db) = Return l ∧
    NoDup l ∧
    ∀ v, v ∈ l ↔
         truthy v = true ∧
         ∃ d, d ∈ collection seeded_db "product" ∧ d !! "category" = Some v.
Proof.
  pose (l := match categories (Some seeded_db) with
             | Return l => l
             | Raise _ => []
             end).
  assert (categories (Some seeded_db) = Return l) as Hcategories
    by reflexivity.
  exists l. split; [exact Hcategories|].
  exact (categories_members seeded_db l Hcategories).
Defined.

Lemma categories_unordered_witness :
  ({[ "category" := VStr "Office" ]} : Dict) ∈ collection mixed_db "product" ∧
  ({[ "category" := VNum (float_of_Z 7) ]} : Dict)
    ∈ collection mixed_db "product" ∧
  py_lt (VStr "Office") (VNum (float_of_Z 7)) = None ∧
  categories (Some mixed_db) = Raise (Exception "TypeError").
Proof.
  pose (d1 := {[ "category" := VStr "Office" ]} : Dict).
  pose (d2 := {[ "category" := VNum (float_of_Z 7) ]} : Dict).
  assert (d1 ∈ collection mixed_db "product") as Hd1
    by (apply (bool_decide_unpack _); vm_compute; exact I).
  assert (d2 ∈ collection mixed_db "product") as Hd2
    by (apply (bool_decide_unpack _); vm_compute; exact I).
  assert (py_lt (VStr "Office") (VNum (float_of_Z 7)) = None) as Hlt
    by reflexivity.
  split; [exact Hd1|]. split; [exact Hd2|]. split; [exact Hlt|].
  exact (categories_unordered mixed_db d1 d2 (VStr "Office")
           (VNum (float_of_Z 7)) Hd1 eq_refl Hd2 eq_refl eq_refl eq_refl
           Hlt).
Defined.

Lemma categories_order_independent_witness :
  Forall Product (collection seeded_db "product") ∧
  collection seeded_db "product" ≡ₚ collection reversed_db "product" ∧
  categories (Some seeded_db) = categories (Some reversed_db).
Proof.
  assert (Forall Product (collection seeded_db "product")) as Hproducts
    by (apply (bool_decide_unpack _); vm_compute; exact I).
  assert (collection seeded_db "product" ≡ₚ collection reversed_db "product")
    as Hperm.
  { change (collection reversed_db "product")
      with (reverse (collection seeded_db "product")).
    symmetry. apply reverse_Permutation. }
  split; [exact Hproducts|]. split; [exact Hperm|].
  exact (categories_order_independent seeded_db reversed_db Hproducts Hperm).
Defined.

Lemma test_database_connection_witness :
  ∃ response,
    test_database (Some failing_db) ∅ = Return response ∧
    response !! "backend" = Some (JStr "✅ Running") ∧
    ∃ status,
      response !! "connection_status" = Some (JStr status) ∧
      (status = "Connected" ↔
       ∃ db', Some failing_db = Some db' ∧
              ∀ msg, name db' ≠ AttributeRaises msg) ∧
      (status ≠ "Connected" → status = "Not Connected").
Proof.
  pose (response := match test_database (Some failing_db) ∅ with
                    | Return response => response
                    | Raise _ => ∅
                    end).
  assert (test_database (Some failing_db) ∅ = Return response) as Hreturn
    by reflexivity.
  exists response. split; [exact Hreturn|].
  exact (test_database_connection (Some failing_db) ∅ response Hreturn).
Defined.

Lemma test_database_text_bounded_witness :
  ∃ response,
    test_database (Some failing_db) ∅ = Return response ∧
    ∃ text,
      response !! "database" = Some (JStr text) ∧ (str_len text ≤ 75)%nat.
Proof.
  pose (response := match test_database (Some failing_db) ∅ with
                    | Return response => response
                    | Raise _ => ∅
                    end).
  assert (test_database (Some failing_db) ∅ = Return response) as Hreturn
    by reflexivity.
  exists response. split; [exact Hreturn|].
  exact (test_database_text_bounded (Some failing_db) ∅ response Hreturn).
Defined.

Lemma get_product_listed_witness :
  (Z.of_nat (length (collection seeded_db "product")) ≤ 50)%Z ∧
  ∃ r,
    get_product plain_repr literal_regex (Some seeded_db)
      "654f1a2b0000000000000003" = Return r ∧
    ∃ rs,
      list_products plain_repr literal_regex (Some seeded_db) None None 50
        (Some "price_desc") = Return rs ∧
      r ∈ rs.
Proof.
  assert (Z.of_nat (length (collection seeded_db "product")) ≤ 50)%Z
    as Hlimit by (vm_compute; discriminate).
  pose (r := serialize_doc plain_repr
               (collection seeded_db "product" !!! 3%nat)).
  assert (get_product plain_repr literal_regex (Some seeded_db)
            "654f1a2b0000000000000003" = Return r) as Hget by reflexivity.
  split; [exact Hlimit|]. exists r. split; [exact Hget|].
  exact (get_product_listed plain_repr literal_regex seeded_db
           "654f1a2b0000000000000003" r 50 (Some "price_desc") Hlimit Hget).
Defined.

Lemma list_products_get_witness :
  Forall Product (collection seeded_db "product") ∧
  NoDup (stored_ids seeded_db) ∧
  ∃ rs r,
    list_products plain_repr literal_regex (Some seeded_db) None
      (Some "Electronics") 1 (Some "rating_desc") = Return rs ∧
    r ∈ rs ∧
    ∃ product_id,
      r !! "id" = Some (VStr product_id) ∧
      get_product plain_repr literal_regex (Some seeded_db) product_id
      = Return r.
Proof.
  assert (Forall Product (collection seeded_db "product")) as Hproducts
    by (apply (bool_decide_unpack _); vm_compute; exact I).
  assert (NoDup (stored_ids seeded_db)) as Hnodup
    by (apply (bool_decide_unpack _); vm_compute; exact I).
  pose (rs := match list_products plain_repr literal_regex (Some seeded_db)
                      None (Some "Electronics") 1 (Some "rating_desc") with
              | Return rs => rs
              | Raise _ => []
              end).
  pose (r := default ∅ (head rs)).
  assert (list_products plain_repr literal_regex (Some seeded_db) None
            (Some "Electronics") 1 (Some "rating_desc") = Return rs)
    as Hlist by reflexivity.
  assert (r ∈ rs) as Hr
    by (apply (bool_decide_unpack _); vm_compute; exact I).
  split; [exact Hproducts|]. split; [exact Hnodup|].
  exists rs, r. split; [exact Hlist|]. split; [exact Hr|].
  exact (list_products_get plain_repr literal_regex seeded_db None
           (Some "Electronics") 1 (Some "rating_desc") rs r Hproducts Hnodup
           Hlist Hr).
Defined.

Lemma PyObjectId_validate_accepts_witness :
  well_formed "654f1a2b 00000000 000000" ∧
  PyObjectId_validate (VStr "654f1a2b 00000000 000000")
  = Return [x65; x4f; x1a; x2b; x00; x00; x00; x00; x00; x00; x00] ∧
  PyObjectId_validate (VStr "654F1A2B0000000000000003")
  = Return (binary (example_oid 3)) ∧
  PyObjectId_validate (VStr "654f1a2b000000000000000g")
  = Raise (Exception "ValueError").
Proof.
  assert (PyObjectId_validate (VStr "654f1a2b 00000000 000000")
          = Return [x65; x4f; x1a; x2b; x00; x00; x00; x00; x00; x00; x00])
    as Hspaced by reflexivity.
  destruct (PyObjectId_validate_accepts (VStr "654f1a2b 00000000 000000"))
    as (_ & Hstr & _).
  destruct (Hstr "654f1a2b 00000000 000000" eq_refl) as [Haccepts _].
  split; [exact (proj1 Haccepts (ex_intro _ _ Hspaced))|].
  split; [exact Hspaced|]. split; reflexivity.
Defined.
